(** * babel-plugin-react-transform

    A shallow embedding of [src/index.js], the Babel 5 plugin that wraps
    every React component of a file (a class with a [render] method, or
    a [React.createClass({...})] call) into the transforms configured
    under [extra["react-transform"]].

    The plugin is written against three collaborators that are not part
    of the repository: Node's [path] module together with the
    [path-parse] package, the Babel [scope]/[file] objects
    ([generateUidIdentifier], [addImport]) and the Babel tree walker.
    The first two are interfaces here ([Path], [Host]); the source
    functions are stated over any implementation of them.  A POSIX
    implementation and a counter-based host are given further down so
    that every definition can be run on concrete inputs. *)

From Stdlib Require Import Ascii String.
From stdpp Require Import base strings list gmap pretty.

(** ** JavaScript results

    The source throws two kinds of exception: [new Error(message)],
    written explicitly, and the [TypeError] the engine raises when a
    property of [undefined] is read. *)

Inductive exn : Type :=
| Error (message : string)
| TypeError (message : string).

Inductive result (A : Type) : Type :=
| Ok (a : A)
| Throw (e : exn).

Arguments Ok {A} a.
Arguments Throw {A} e.


(** Pure fallible code ([resolvePath], [getPluginOptions], ...). *)
Definition rbind {A B} (r : result A) (k : A → result B) : result B :=
  match r with
  | Ok a => k a
  | Throw e => Throw e
  end.

(** ** The syntax tree

    ESTree nodes as Babel 5 builds them.  Fields that may hold [null]
    are options; [kind] fields keep their JavaScript strings.  The
    members of a class body and the properties of an object literal are
    node categories of their own, as in the grammar.  [Other] stands for
    any node kind the plugin never inspects (it has no [id] and no
    [arguments]); its children are still walked. *)

Scheme All for list.
Scheme All for option.

Inductive literal_value : Type :=
| LString (s : string)
| LNumber (n : N)
| LBoolean (b : bool)
| LNull.

Inductive node : Type :=
| Identifier (name : string)
| Literal (value : literal_value)
| MemberExpression (object property : node) (computed : bool)
| CallExpression (callee : node) (arguments : list node)
| NewExpression (callee : node) (arguments : list node)
| ObjectExpression (properties : list property)
| ArrayExpression (elements : list node)
| FunctionExpression (id : option node) (params : list node) (body : node)
| ArrowFunctionExpression (params : list node) (body : node)
| FunctionDeclaration (id : option node) (params : list node) (body : node)
| ClassExpression (id superClass : option node) (body : list member)
    (decorators : option (list node))
| ClassDeclaration (id superClass : option node) (body : list member)
    (decorators : option (list node))
| Decorator (expression : node)
| BlockStatement (body : list node)
| ReturnStatement (argument : option node)
| ExpressionStatement (expression : node)
| VariableDeclaration (kind : string) (declarations : list node)
| VariableDeclarator (id : node) (init : option node)
| Program (body : list node)
| Other (type : string) (children : list node)
with property : Type :=
| Property (kind : string) (key value : node) (computed : bool)
| SpreadProperty (argument : node)
with member : Type :=
| MethodDefinition (kind : string) (key value : node) (computed static : bool)
| ClassProperty (key : node) (value : option node) (computed static : bool).

Scheme node_mut := Induction for node Sort Prop
with property_mut := Induction for property Sort Prop
with member_mut := Induction for member Sort Prop.

(** Field reads.  Reading a field a node does not have gives
    [undefined], here [None]. *)

Definition node_name (n : node) : option string :=
  match n with
  | Identifier name => Some name
  | _ => None
  end.

Definition node_value (n : node) : option literal_value :=
  match n with
  | Literal v => Some v
  | _ => None
  end.

(** [node.id], where a [null] id and a missing one both are falsy. *)
Definition node_id (n : node) : option node :=
  match n with
  | FunctionExpression id _ _ | FunctionDeclaration id _ _ => id
  | ClassExpression id _ _ _ | ClassDeclaration id _ _ _ => id
  | VariableDeclarator id _ => Some id
  | _ => None
  end.

Definition node_arguments (n : node) : option (list node) :=
  match n with
  | CallExpression _ args | NewExpression _ args => Some args
  | _ => None
  end.

(** [node.properties]; only an object literal has the field. *)
Definition node_properties (n : node) : option (list property) :=
  match n with
  | ObjectExpression props => Some props
  | _ => None
  end.

(** [cls.body.body] of a class node. *)
Definition class_members (cls : node) : list member :=
  match cls with
  | ClassExpression _ _ body _ | ClassDeclaration _ _ body _ => body
  | _ => []
  end.

Definition program_body (n : node) : list node :=
  match n with
  | Program body => body
  | _ => []
  end.

Definition member_kind (m : member) : option string :=
  match m with
  | MethodDefinition kind _ _ _ _ => Some kind
  | ClassProperty _ _ _ _ => None
  end.

Definition member_key (m : member) : node :=
  match m with
  | MethodDefinition _ key _ _ _ | ClassProperty key _ _ _ => key
  end.

(** Babel's node-type tests. *)
Definition isCallExpression (n : node) : bool :=
  match n with CallExpression _ _ => true | _ => false end.

Definition isObjectExpression (n : node) : bool :=
  match n with ObjectExpression _ => true | _ => false end.

Definition isFunction (n : node) : bool :=
  match n with
  | FunctionExpression _ _ _ | ArrowFunctionExpression _ _
  | FunctionDeclaration _ _ _ => true
  | _ => false
  end.

Definition isClass (n : node) : bool :=
  match n with
  | ClassExpression _ _ _ _ | ClassDeclaration _ _ _ _ => true
  | _ => false
  end.

(** [t.isLiteral(key, { value: v })] with a string [v]. *)
Definition isLiteral_value (key : option node) (v : string) : bool :=
  match key with
  | Some (Literal (LString s)) => String.eqb s v
  | _ => false
  end.

(** [t.toComputedKey(prop)]: the key of a property, an identifier key
    that is not computed being turned into the string literal of its
    name.  A spread element has neither [key] nor [property]. *)
Definition toComputedKey (prop : property) : option node :=
  match prop with
  | Property _ key _ computed =>
      if computed then Some key
      else match key with
           | Identifier name => Some (Literal (LString name))
           | _ => Some key
           end
  | SpreadProperty _ => None
  end.

(** [prop.value.value]: the value of the property's value node when
    that node is a literal.  Reading [.value] of the missing [value] of
    a spread element would raise; [toComputedKey] never matches one. *)
Definition property_value_value (prop : property) : result (option literal_value) :=
  match prop with
  | Property _ _ value _ => Ok (node_value value)
  | SpreadProperty _ =>
      Throw (TypeError "Cannot read property 'value' of undefined")
  end.

(** ** Configuration and file objects

    [file.opts] as Babel hands it to a plugin.  [extra] is the
    free-form object of per-plugin options; the value stored under a key
    is either an array of transform-target records or something that is
    not an array. *)

Record TransformTargetRecord : Type := {
  target : string;
  imports : option (list string);
  locals : option (list string)
}.

Inductive option_value : Type :=
| OptArray (records : list TransformTargetRecord)
| OptNotArray (v : literal_value).

Record FileOpts : Type := {
  filename : string;
  extra : option (gmap string option_value)
}.

Record File : Type := {
  opts : option FileOpts
}.

(** ** The path library

    What the plugin uses of Node's [path] and of [path-parse].
    [path_resolve] and [path_join] take their arguments as a list;
    [__dirname] is the directory of the plugin's own module. *)

Record ParsedPath : Type := {
  root : string;
  dir : string;
  base : string;
  ext : string;
  name : string
}.

Class Path : Type := {
  __dirname : string;
  path_sep : string;
  path_resolve : list string → string;
  path_join : list string → string;
  path_relative : string → string → string;
  path_dirname : string → string;
  path_basename : string → string;
  parsePath : string → ParsedPath
}.

(** ** The host

    The capabilities consumed from Babel: [scope.generateUid],
    [file.addImport] and the matcher that
    [t.buildMatchMemberExpression('React.createClass')] returns.  The
    first two change the host's bookkeeping, the [world]. *)

Class Host (world : Type) : Type := {
  generateUid : string → world → string * world;
  addImport : string → option string → option string → world → node * world;
  isCreateClassCallExpression : node → bool
}.

(** Host-state passing with exceptions. *)
Definition M (world A : Type) : Type := world → result (A * world).

Definition ret {world A} (a : A) : M world A := λ w, Ok (a, w).

Definition throw {world A} (e : exn) : M world A := λ _, Throw e.

Definition bind {world A B} (m : M world A) (k : A → M world B) : M world B :=
  λ w, match m w with
       | Ok (a, w') => k a w'
       | Throw e => Throw e
       end.

Definition lift {world A} (r : result A) : M world A :=
  λ w, match r with
       | Ok a => Ok (a, w)
       | Throw e => Throw e
       end.

Definition call {world A} (f : world → A * world) : M world A :=
  λ w, Ok (f w).

Declare Scope js_scope.
Delimit Scope js_scope with js.
Notation "'let*' x ':=' m 'in' k" := (bind m (λ x, k))
  (at level 10, x pattern, m at level 100, k at level 200) : js_scope.
Notation "'try' x ':=' r 'in' k" := (rbind r (λ x, k))
  (at level 10, x pattern, r at level 100, k at level 200) : js_scope.
Open Scope js_scope.

(** [array.map(f)] with an [f] that may throw and that uses the host. *)
Fixpoint mapM {world A B} (f : A → M world B) (l : list A) : M world (list B) :=
  match l with
  | [] => ret []
  | x :: xs =>
      let* y := f x in
      let* ys := mapM f xs in
      ret (y :: ys)
  end.

(** [array.some(p)] with a [p] that may throw: elements are tried from
    the left, up to the first one that satisfies [p]. *)
Fixpoint some {A} (p : A → result bool) (l : list A) : result bool :=
  match l with
  | [] => Ok false
  | x :: xs =>
      try b := p x in
      if b then Ok true else some p xs
  end.

(** [array.filter(Boolean)] on a list of arrays-or-undefined. *)
Definition filter_Boolean {A} (l : list (option A)) : list A := omap id l.

(** ** The plugin *)

(** [this.state]: the three keys the plugin keeps on the per-file state
    object.  [__reactTransformDepth] and [__reactTransformRecords] are
    [undefined] until first written; [__reactTransformWrapComponentId]
    is written by [Program.enter], which the walker runs before any
    other visitor. *)
Record State : Type := {
  __reactTransformDepth : option Z;
  __reactTransformRecords : option (list property);
  __reactTransformWrapComponentId : node
}.

(** The double quote character. *)
Definition dquote : string :=
  String (Ascii.Ascii false true false false false true false false) EmptyString.

(** The two errors the specification names are both plain [Error]s in
    the source, told apart by their message. *)
Definition UnsafeRelativePathError (specifiedPath : string) : exn :=
  Error ("Relative path like " +:+ specifiedPath +:+ " is only allowed if " +:+
         "babel-plugin-react-transform is inside a node_modules folder.").

Definition ConfigurationError : exn :=
  Error ("babel-plugin-react-transform requires that you specify " +:+
         "extras[" +:+ dquote +:+ "react-transform" +:+ dquote +:+ "] in .babelrc " +:+
         "or in your Babel Node API call options, and that it is an array.").

Section Plugin.
Context `{Path} {world : Type} `{Host world}.

(** *** Path resolution (index.js, lines 5-26) *)

Definition parentDir : string :=
  path_resolve [path_join [__dirname; ".."; ".."]].

(** [specifiedPath[0] === '.'] *)
Definition starts_with_dot (specifiedPath : string) : bool :=
  match specifiedPath with
  | String c _ => Ascii.eqb c "."%char
  | EmptyString => false
  end.

Definition resolvePathConservatively (specifiedPath filePath : string) : result string :=
  if starts_with_dot specifiedPath then
    Throw (UnsafeRelativePathError specifiedPath)
  else Ok specifiedPath.

Definition resolvePathAssumingWeAreInNodeModules (specifiedPath filePath : string)
  : result string :=
  if starts_with_dot specifiedPath then
    Ok ("." +:+ path_sep +:+
        path_relative
          (path_dirname filePath)
          (path_resolve [path_join [parentDir; ".."; specifiedPath]]))
  else Ok specifiedPath.

Definition resolvePath : string → string → result string :=
  if String.eqb (path_basename parentDir) "node_modules" then
    resolvePathAssumingWeAreInNodeModules
  else resolvePathConservatively.

(** *** Component detection (lines 32-84) *)

Definition isRenderMethod (member : member) : bool :=
  bool_decide (member_kind member = Some "method") &&
  bool_decide (node_name (member_key member) = Some "render").

Definition isComponentishClass (cls : node) : bool :=
  Nat.ltb 0 (length (List.filter isRenderMethod (class_members cls))).

Definition isCreateClass (n : option node) : bool :=
  match n with
  | Some (CallExpression callee args) =>
      if negb (isCreateClassCallExpression callee) then false
      else match args with
           | [first] => if negb (isObjectExpression first) then false else true
           | _ => false
           end
  | _ => false
  end.

(** The [for] loop of [findDisplayName]: the first property whose
    computed key is the literal ["displayName"] ends the search. *)
Fixpoint findDisplayName_props (props : list property) : result (option literal_value) :=
  match props with
  | [] => Ok None
  | prop :: rest =>
      let key := toComputedKey prop in
      if isLiteral_value key "displayName" then property_value_value prop
      else findDisplayName_props rest
  end.

Definition findDisplayName (n : node) : result (option literal_value) :=
  match node_id n with
  | Some id => Ok (LString <$> node_name id)
  | None =>
      match node_arguments n with
      | None => Ok None
      | Some [] =>
          Throw (TypeError "Cannot read property 'properties' of undefined")
      | Some (first :: _) =>
          match node_properties first with
          | None => Throw (TypeError "Cannot read property 'length' of undefined")
          | Some props => findDisplayName_props props
          end
      end
  end.

(** *** Plugin options (lines 89-102) *)

Definition getPluginOptions (file : File) : result (option (list TransformTargetRecord)) :=
  match opts file with
  | None => Ok None
  | Some o =>
      match extra o with
      | None => Ok None
      | Some ex =>
          match ex !! "react-transform" with
          | Some (OptArray pluginOptions) => Ok (Some pluginOptions)
          | _ => Throw ConfigurationError
          end
      end
  end.

(** *** Component records (lines 108-164) *)

Definition generateUidIdentifier (hint : string) : M world node :=
  let* uid := call (generateUid hint) in ret (Identifier uid).

(** JavaScript truthiness and string conversion of a literal's value. *)
Definition truthy (v : literal_value) : bool :=
  match v with
  | LString s => negb (String.eqb s EmptyString)
  | LNumber n => negb (N.eqb n 0)
  | LBoolean b => b
  | LNull => false
  end.

Definition to_string (v : literal_value) : string :=
  match v with
  | LString s => s
  | LNumber n => pretty n
  | LBoolean b => if b then "true" else "false"
  | LNull => "null"
  end.

(** [x || undefined] *)
Definition or_undefined (x : option literal_value) : option literal_value :=
  match x with
  | Some v => if truthy v then Some v else None
  | None => None
  end.

Definition createComponentRecord (n : node) (file : File) (state : State)
  : M world (string * node) :=
  let* found := lift (findDisplayName n) in
  let displayName := or_undefined found in
  let* uniqueId :=
    call (generateUid ("$" +:+ from_option to_string "Unknown" displayName)) in
  let props1 :=
    match displayName with
    | Some (LString s) =>
        [Property "init" (Identifier "displayName") (Literal (LString s)) false]
    | _ => []
    end in
  let props2 :=
    match __reactTransformDepth state with
    | Some depth =>
        if Z.ltb 0 depth then
          [Property "init" (Identifier "isInFunction") (Literal (LBoolean true)) false]
        else []
    | None => []
    end in
  ret (uniqueId, ObjectExpression (props1 ++ props2)).

Definition addComponentRecord (n : node) (file : File) (state : State)
  : M world (string * State) :=
  let* (uniqueId, definition) := createComponentRecord n file state in
  let records := default [] (__reactTransformRecords state) in
  ret (uniqueId,
       {| __reactTransformDepth := __reactTransformDepth state;
          __reactTransformRecords :=
            Some (records ++ [Property "init" (Identifier uniqueId) definition false]);
          __reactTransformWrapComponentId := __reactTransformWrapComponentId state |}).

Definition foundComponentRecords (state : State) : bool :=
  match __reactTransformRecords state with
  | Some records => Nat.ltb 0 (length records)
  | None => false
  end.

(** The records are moved out of the state, which keeps an empty list.
    The only caller has checked [foundComponentRecords] before, so the
    list is there. *)
Definition defineComponentRecords (state : State) : M world (node * node * State) :=
  let records := default [] (__reactTransformRecords state) in
  let state' :=
    {| __reactTransformDepth := __reactTransformDepth state;
       __reactTransformRecords := Some [];
       __reactTransformWrapComponentId := __reactTransformWrapComponentId state |} in
  let* id := generateUidIdentifier "components" in
  ret (id,
       VariableDeclaration "var" [VariableDeclarator id (Some (ObjectExpression records))],
       state').

(** *** Synthesis (lines 170-221) *)

Definition isSameAsFileBeingProcessed (filename importPath : string) : result bool :=
  try resolved := resolvePath importPath filename in
  let parsed := parsePath resolved in
  Ok (String.eqb (dir parsed) "." &&
      String.eqb (name parsed) (name (parsePath filename))).

Definition defineInitTransformCall (file : File) (recordsId : node)
    (targetOptions : TransformTargetRecord) : M world (option (node * node)) :=
  let* id := generateUidIdentifier "reactComponentWrapper" in
  let target := target targetOptions in
  let imports := default [] (imports targetOptions) in
  let locals := default [] (locals targetOptions) in
  match opts file with
  | None => throw (TypeError "Cannot read property 'filename' of undefined")
  | Some o =>
      let filename := filename o in
      let* skip := lift (some (isSameAsFileBeingProcessed filename) imports) in
      if skip then ret None
      else
        let* targetPath := lift (resolvePath target filename) in
        let* callee := call (addImport targetPath None None) in
        let* importIds :=
          mapM (λ imp,
                  let* importPath := lift (resolvePath imp filename) in
                  call (addImport importPath (Some imp) (Some "absolute")))
               imports in
        ret (Some (id,
          VariableDeclaration "var" [
            VariableDeclarator id (Some
              (CallExpression callee [
                 ObjectExpression [
                   Property "init" (Identifier "filename")
                     (Literal (LString filename)) false;
                   Property "init" (Identifier "components") recordsId false;
                   Property "init" (Identifier "locals")
                     (ArrayExpression (map Identifier locals)) false;
                   Property "init" (Identifier "imports")
                     (ArrayExpression importIds) false
                 ]
               ]))
          ]))
  end.

Definition defineWrapComponent (wrapComponentId : node) (initTransformIds : list node)
  : node :=
  FunctionDeclaration (Some wrapComponentId) [Identifier "uniqueId"]
    (BlockStatement [
       ReturnStatement (Some
         (FunctionExpression None [Identifier "ReactClass"] (BlockStatement [
            ReturnStatement (Some
              (fold_left
                 (λ composed initTransformId,
                    CallExpression initTransformId [composed; Identifier "uniqueId"])
                 initTransformIds
                 (Identifier "ReactClass")))
          ])))
     ]).

(** *** Visitors (lines 223-300) *)

Definition set_depth (state : State) (depth : option Z) : State :=
  {| __reactTransformDepth := depth;
     __reactTransformRecords := __reactTransformRecords state;
     __reactTransformWrapComponentId := __reactTransformWrapComponentId state |}.

(** [if (!state[depthKey]) state[depthKey] = 0; state[depthKey]++] *)
Definition Function_enter (state : State) : State :=
  let depth :=
    match __reactTransformDepth state with
    | Some d => if Z.eqb d 0 then 0%Z else d
    | None => 0%Z
    end in
  set_depth state (Some (depth + 1)%Z).

(** [state[depthKey]--].  On a missing key JavaScript stores [NaN],
    which the two tests made on the depth ([!depth] and [depth > 0])
    cannot tell from [undefined]; it is kept as [None]. *)
Definition Function_exit (state : State) : State :=
  set_depth state ((λ d, (d - 1)%Z) <$> __reactTransformDepth state).

(** [node.decorators = node.decorators || []; node.decorators.push(d)] *)
Definition push_decorator (cls d : node) : node :=
  match cls with
  | ClassExpression id superClass body decorators =>
      ClassExpression id superClass body (Some (default [] decorators ++ [d]))
  | ClassDeclaration id superClass body decorators =>
      ClassDeclaration id superClass body (Some (default [] decorators ++ [d]))
  | _ => cls
  end.

Definition Class (n : node) (file : File) (state : State) : M world (node * State) :=
  if negb (isComponentishClass n) then ret (n, state)
  else
    let wrapReactComponentId := __reactTransformWrapComponentId state in
    let* (uniqueId, state) := addComponentRecord n file state in
    ret (push_decorator n
           (Decorator
              (CallExpression wrapReactComponentId [Literal (LString uniqueId)])),
         state).

(** The replacement node, if any, and the state. *)
Definition CallExpression_exit (n : node) (file : File) (state : State)
  : M world (option node * State) :=
  if negb (isCreateClass (Some n)) then ret (None, state)
  else
    let wrapReactComponentId := __reactTransformWrapComponentId state in
    let* (uniqueId, state) := addComponentRecord n file state in
    ret (Some
           (CallExpression
              (CallExpression wrapReactComponentId [Literal (LString uniqueId)])
              [n]),
         state).

(** The state object is fresh for every file. *)
Definition Program_enter : M world State :=
  let* id := generateUidIdentifier "wrapComponent" in
  ret {| __reactTransformDepth := None;
         __reactTransformRecords := None;
         __reactTransformWrapComponentId := id |}.

Definition Program_exit (n : node) (file : File) (state : State)
  : M world (option node * State) :=
  if negb (foundComponentRecords state) then ret (None, state)
  else
    let* allTransformOptions := lift (getPluginOptions file) in
    let* (recordsId, recordsVar, state) := defineComponentRecords state in
    match allTransformOptions with
    | None => throw (TypeError "Cannot read property 'map' of undefined")
    | Some allTransformOptions =>
        let* initTransformCalls :=
          mapM (defineInitTransformCall file recordsId) allTransformOptions in
        let initTransformCalls := filter_Boolean initTransformCalls in
        let initTransformIds := map fst initTransformCalls in
        let initTransformVars := map snd initTransformCalls in
        let wrapComponentId := __reactTransformWrapComponentId state in
        let wrapComponent := defineWrapComponent wrapComponentId initTransformIds in
        ret (Some (Program
                     ([recordsVar] ++ initTransformVars ++ [wrapComponent] ++
                      program_body n)),
             state)
    end.

End Plugin.

(** ** The tree walker

    Modelled from the spec: the host's traversal driver is not part of
    the repository.  Sections 2, 5 and 6 of the specification describe
    it as a single synchronous depth-first walk that calls the [enter]
    hook of a node kind before the node's children and the [exit] hook
    after them, starting at the program.  [Function] covers the three
    function kinds and [Class] the two class kinds; a visitor given as a
    plain function ([Class]) is an [enter] hook.  A node returned by an
    [exit] hook replaces the visited node and is not walked again, and
    the decorator [Class] pushes is not walked either: its callee is the
    wrapper identifier, which no visitor acts on. *)

Section Walker.
Context `{Path} {world : Type} `{Host world}.
Variable file : File.

Definition mapS {A} (f : A → State → M world (A * State))
  : list A → State → M world (list A * State) :=
  fix go l state :=
    match l with
    | [] => ret ([], state)
    | x :: xs =>
        let* (x', state) := f x state in
        let* (xs', state) := go xs state in
        ret (x' :: xs', state)
    end.

Definition optS {A} (f : A → State → M world (A * State))
    (o : option A) (state : State) : M world (option A * State) :=
  match o with
  | None => ret (None, state)
  | Some x => let* (x', state) := f x state in ret (Some x', state)
  end.

Definition node_decorators (n : node) : option (list node) :=
  match n with
  | ClassExpression _ _ _ decorators | ClassDeclaration _ _ _ decorators => decorators
  | _ => None
  end.

(** The decorators an [enter] hook has pushed on a class node. *)
Definition pushed_decorators (before after : node) : list node :=
  drop (length (default [] (node_decorators before)))
       (default [] (node_decorators after)).

Definition with_pushed (decorators : option (list node)) (pushed : list node)
  : option (list node) :=
  match pushed with
  | [] => decorators
  | _ => Some (default [] decorators ++ pushed)
  end.

Fixpoint traverse (n : node) (state : State) {struct n} : M world (node * State) :=
  let state := if isFunction n then Function_enter state else state in
  let* (entered, state) :=
    if isClass n then Class n file state else ret (n, state) in
  let* (n', state) :=
    match n with
    | Identifier _ | Literal _ => ret (n, state)
    | MemberExpression object property computed =>
        let* (object, state) := traverse object state in
        let* (property, state) := traverse property state in
        ret (MemberExpression object property computed, state)
    | CallExpression callee arguments =>
        let* (callee, state) := traverse callee state in
        let* (arguments, state) := mapS traverse arguments state in
        ret (CallExpression callee arguments, state)
    | NewExpression callee arguments =>
        let* (callee, state) := traverse callee state in
        let* (arguments, state) := mapS traverse arguments state in
        ret (NewExpression callee arguments, state)
    | ObjectExpression properties =>
        let* (properties, state) := mapS traverse_property properties state in
        ret (ObjectExpression properties, state)
    | ArrayExpression elements =>
        let* (elements, state) := mapS traverse elements state in
        ret (ArrayExpression elements, state)
    | FunctionExpression id params body =>
        let* (id, state) := optS traverse id state in
        let* (params, state) := mapS traverse params state in
        let* (body, state) := traverse body state in
        ret (FunctionExpression id params body, state)
    | ArrowFunctionExpression params body =>
        let* (params, state) := mapS traverse params state in
        let* (body, state) := traverse body state in
        ret (ArrowFunctionExpression params body, state)
    | FunctionDeclaration id params body =>
        let* (id, state) := optS traverse id state in
        let* (params, state) := mapS traverse params state in
        let* (body, state) := traverse body state in
        ret (FunctionDeclaration id params body, state)
    | ClassExpression id superClass body decorators =>
        let* (id, state) := optS traverse id state in
        let* (superClass, state) := optS traverse superClass state in
        let* (body, state) := mapS traverse_member body state in
        let* (decorators, state) := optS (mapS traverse) decorators state in
        ret (ClassExpression id superClass body
               (with_pushed decorators (pushed_decorators n entered)),
             state)
    | ClassDeclaration id superClass body decorators =>
        let* (id, state) := optS traverse id state in
        let* (superClass, state) := optS traverse superClass state in
        let* (body, state) := mapS traverse_member body state in
        let* (decorators, state) := optS (mapS traverse) decorators state in
        ret (ClassDeclaration id superClass body
               (with_pushed decorators (pushed_decorators n entered)),
             state)
    | Decorator expression =>
        let* (expression, state) := traverse expression state in
        ret (Decorator expression, state)
    | BlockStatement body =>
        let* (body, state) := mapS traverse body state in
        ret (BlockStatement body, state)
    | ReturnStatement argument =>
        let* (argument, state) := optS traverse argument state in
        ret (ReturnStatement argument, state)
    | ExpressionStatement expression =>
        let* (expression, state) := traverse expression state in
        ret (ExpressionStatement expression, state)
    | VariableDeclaration kind declarations =>
        let* (declarations, state) := mapS traverse declarations state in
        ret (VariableDeclaration kind declarations, state)
    | VariableDeclarator id init =>
        let* (id, state) := traverse id state in
        let* (init, state) := optS traverse init state in
        ret (VariableDeclarator id init, state)
    | Program body =>
        let* (body, state) := mapS traverse body state in
        ret (Program body, state)
    | Other type children =>
        let* (children, state) := mapS traverse children state in
        ret (Other type children, state)
    end in
  let state := if isFunction n then Function_exit state else state in
  let* (replacement, state) :=
    if isCallExpression n' then CallExpression_exit n' file state
    else ret (None, state) in
  ret (default n' replacement, state)
with traverse_property (p : property) (state : State) {struct p}
  : M world (property * State) :=
  match p with
  | Property kind key value computed =>
      let* (key, state) := traverse key state in
      let* (value, state) := traverse value state in
      ret (Property kind key value computed, state)
  | SpreadProperty argument =>
      let* (argument, state) := traverse argument state in
      ret (SpreadProperty argument, state)
  end
with traverse_member (m : member) (state : State) {struct m}
  : M world (member * State) :=
  match m with
  | MethodDefinition kind key value computed static =>
      let* (key, state) := traverse key state in
      let* (value, state) := traverse value state in
      ret (MethodDefinition kind key value computed static, state)
  | ClassProperty key value computed static =>
      let* (key, state) := traverse key state in
      let* (value, state) := optS traverse value state in
      ret (ClassProperty key value computed static, state)
  end.

(** The whole transform of one file, given the body of its program
    node: [Program.enter], the walk of the statements, [Program.exit]. *)
Definition transform (body : list node) : M world node :=
  let* state := Program_enter in
  let* (body, state) := mapS traverse body state in
  let* (replacement, state) := Program_exit (Program body) file state in
  ret (default (Program body) replacement).

End Walker.

(** A tree in which no component-like node can be detected: no class
    with a render method and no qualifying factory call, at any depth. *)
Section Detection.
Context {world : Type} `{Host world}.

Fixpoint no_component (n : node) : bool :=
  negb (isClass n && isComponentishClass n) &&
  negb (isCreateClass (Some n)) &&
  match n with
  | Identifier _ | Literal _ => true
  | MemberExpression object property _ =>
      no_component object && no_component property
  | CallExpression callee arguments | NewExpression callee arguments =>
      no_component callee && forallb no_component arguments
  | ObjectExpression properties => forallb no_component_property properties
  | ArrayExpression elements => forallb no_component elements
  | FunctionExpression id params body | FunctionDeclaration id params body =>
      from_option no_component true id &&
      forallb no_component params && no_component body
  | ArrowFunctionExpression params body =>
      forallb no_component params && no_component body
  | ClassExpression id superClass body decorators
  | ClassDeclaration id superClass body decorators =>
      from_option no_component true id &&
      from_option no_component true superClass &&
      forallb no_component_member body &&
      from_option (forallb no_component) true decorators
  | Decorator expression | ExpressionStatement expression => no_component expression
  | BlockStatement body | Program body => forallb no_component body
  | ReturnStatement argument => from_option no_component true argument
  | VariableDeclaration _ declarations => forallb no_component declarations
  | VariableDeclarator id init =>
      no_component id && from_option no_component true init
  | Other _ children => forallb no_component children
  end
with no_component_property (p : property) : bool :=
  match p with
  | Property _ key value _ => no_component key && no_component value
  | SpreadProperty argument => no_component argument
  end
with no_component_member (m : member) : bool :=
  match m with
  | MethodDefinition _ key value _ _ => no_component key && no_component value
  | ClassProperty key value _ _ =>
      no_component key && from_option no_component true value
  end.

End Detection.

(** ** A POSIX path library

    Node's [path] module (POSIX flavour, as shipped with the Node
    releases Babel 5 ran on) and [path-parse], written out so that the
    plugin can be run.  Both split a path with the same regular
    expression into four groups: the root (a leading slash or nothing),
    the directory (the shortest text that lets the rest match, so
    everything up to and including the last slash before the last
    segment), the last segment, and the segment's extension; trailing
    slashes are left out.  [splitPath] computes the groups.  [cwd] is
    [process.cwd()]. *)

Module Posix.

Definition is_slash (c : ascii) : bool := Ascii.eqb c "/"%char.

(** [s.split('/')] *)
Fixpoint split (s : string) : list string :=
  match s with
  | EmptyString => [EmptyString]
  | String c rest =>
      if is_slash c then EmptyString :: split rest
      else match split rest with
           | hd :: tl => String c hd :: tl
           | [] => [String c EmptyString]
           end
  end.

(** [parts.join('/')] *)
Definition join_slash (parts : list string) : string :=
  match parts with
  | [] => EmptyString
  | p :: ps => fold_left (λ acc x, acc +:+ "/" +:+ x) ps p
  end.

Definition isAbsolute (path : string) : bool :=
  match path with
  | String c _ => is_slash c
  | EmptyString => false
  end.

Definition nonempty (s : string) : bool := negb (String.eqb s EmptyString).

Definition normalizeArray (parts : list string) (allowAboveRoot : bool) : list string :=
  fold_left
    (λ res p,
       if negb (nonempty p) || String.eqb p "." then res
       else if String.eqb p ".." then
         match last res with
         | Some top =>
             if negb (String.eqb top "..") then removelast res
             else if allowAboveRoot then res ++ [".."] else res
         | None => if allowAboveRoot then res ++ [".."] else res
         end
       else res ++ [p])
    parts [].

(** The loop of [resolve], from the last argument down to [cwd]. *)
Fixpoint resolve_loop (paths : list string) (resolvedPath : string) : string * bool :=
  match paths with
  | [] => (resolvedPath, false)
  | path :: rest =>
      if negb (nonempty path) then resolve_loop rest resolvedPath
      else
        let resolvedPath := path +:+ "/" +:+ resolvedPath in
        if isAbsolute path then (resolvedPath, true)
        else resolve_loop rest resolvedPath
  end.

Definition resolve (cwd : string) (args : list string) : string :=
  let '(resolvedPath, resolvedAbsolute) :=
    resolve_loop (rev args ++ [cwd]) EmptyString in
  let resolvedPath :=
    join_slash (normalizeArray (split resolvedPath) (negb resolvedAbsolute)) in
  let r := (if resolvedAbsolute then "/" else EmptyString) +:+ resolvedPath in
  if nonempty r then r else ".".

Fixpoint ends_with_slash (path : string) : bool :=
  match path with
  | EmptyString => false
  | String c EmptyString => is_slash c
  | String _ rest => ends_with_slash rest
  end.

Definition normalize (path : string) : string :=
  let trailingSlash := ends_with_slash path in
  let p := join_slash (normalizeArray (split path) (negb (isAbsolute path))) in
  let p := if negb (nonempty p) && negb (isAbsolute path) then "." else p in
  let p := if nonempty p && trailingSlash then p +:+ "/" else p in
  (if isAbsolute path then "/" else EmptyString) +:+ p.

Definition join (args : list string) : string :=
  normalize (join_slash (List.filter nonempty args)).

(** [trim] of [relative]: drops the empty parts at both ends. *)
Definition trim (arr : list string) : list string :=
  let drop_front := fix go (l : list string) :=
    match l with
    | x :: xs => if nonempty x then l else go xs
    | [] => []
    end in
  rev (drop_front (rev (drop_front arr))).

Fixpoint samePartsLength (fromParts toParts : list string) : nat :=
  match fromParts, toParts with
  | f :: fs, t :: ts => if String.eqb f t then S (samePartsLength fs ts) else 0
  | _, _ => 0
  end.

Definition substr1 (s : string) : string :=
  match s with
  | String _ rest => rest
  | EmptyString => EmptyString
  end.

Definition relative (cwd from to : string) : string :=
  let fromParts := trim (split (substr1 (resolve cwd [from]))) in
  let toParts := trim (split (substr1 (resolve cwd [to]))) in
  let same := samePartsLength fromParts toParts in
  join_slash (replicate (length fromParts - same) ".." ++ drop same toParts).

(** Group 4 of the expression on a last path segment: the text from the
    last dot on, unless that dot starts the segment; [".."] has none. *)
Fixpoint last_dot_suffix (seg : string) : option string :=
  match seg with
  | EmptyString => None
  | String c rest =>
      match last_dot_suffix rest with
      | Some e => Some e
      | None => if Ascii.eqb c "."%char then Some seg else None
      end
  end.

Definition ext_of (seg : string) : string :=
  if String.eqb seg ".." then EmptyString
  else match seg with
       | String _ rest => default EmptyString (last_dot_suffix rest)
       | EmptyString => EmptyString
       end.

Fixpoint strip_trailing_slashes (s : string) : string :=
  match s with
  | EmptyString => EmptyString
  | String c rest =>
      match strip_trailing_slashes rest with
      | EmptyString => if is_slash c then EmptyString else String c EmptyString
      | rest' => String c rest'
      end
  end.

(** Splits at the last slash: the text up to and including it, and the
    segment after it. *)
Fixpoint split_last_segment (s : string) : string * string :=
  match s with
  | EmptyString => (EmptyString, EmptyString)
  | String c rest =>
      let '(d, b) := split_last_segment rest in
      if nonempty d then (String c d, b)
      else if is_slash c then (String c EmptyString, b)
      else (EmptyString, String c b)
  end.

(** The groups [root, dir, basename, ext]. *)
Definition splitPath (path : string) : string * string * string * string :=
  let root := if isAbsolute path then "/" else EmptyString in
  let rest := if isAbsolute path then substr1 path else path in
  let '(d, b) := split_last_segment (strip_trailing_slashes rest) in
  (root, d, b, ext_of b).

(** [s.slice(0, -1)] and [s.slice(0, s.length - n)] *)
Definition drop_end (n : nat) (s : string) : string :=
  String.substring 0 (String.length s - n) s.

Definition dirname (path : string) : string :=
  let '(root, d, _, _) := splitPath path in
  if negb (nonempty root) && negb (nonempty d) then "."
  else root +:+ drop_end 1 d.

Definition basename (path : string) : string :=
  let '(_, _, b, _) := splitPath path in b.

Definition parse (pathString : string) : ParsedPath :=
  let '(r, d, b, e) := splitPath pathString in
  {| root := r;
     dir := r +:+ drop_end 1 d;
     base := b;
     ext := e;
     name := drop_end (String.length e) b |}.

End Posix.

(** The plugin installed in the directory [plugin_dir], run by a
    process whose working directory is [cwd]. *)
Definition posix (cwd plugin_dir : string) : Path :=
  {| __dirname := plugin_dir;
     path_sep := "/";
     path_resolve := Posix.resolve cwd;
     path_join := Posix.join;
     path_relative := Posix.relative cwd;
     path_dirname := Posix.dirname;
     path_basename := Posix.basename;
     parsePath := Posix.parse |}.

(** ** A host

    A small stand-in for Babel, enough to run the plugin: unique names
    are [_hint] followed by a running number, and [addImport] hands out
    one identifier per imported name, remembering the module source. *)

Record BabelWorld : Type := {
  uidCounter : N;
  dynamicImportIds : gmap string string;
  importedSources : list string
}.

Definition babel_generateUid (hint : string) (w : BabelWorld) : string * BabelWorld :=
  ("_" +:+ hint +:+ pretty (uidCounter w),
   {| uidCounter := N.succ (uidCounter w);
      dynamicImportIds := dynamicImportIds w;
      importedSources := importedSources w |}).

Definition babel_addImport (source : string) (name type : option string)
    (w : BabelWorld) : node * BabelWorld :=
  let name := default source name in
  match dynamicImportIds w !! name with
  | Some uid => (Identifier uid, w)
  | None =>
      let '(uid, w) := babel_generateUid name w in
      (Identifier uid,
       {| uidCounter := uidCounter w;
          dynamicImportIds := <[name := uid]> (dynamicImportIds w);
          importedSources := importedSources w ++ [source] |})
  end.

(** One part of the pattern [React.createClass] against one side of a
    member expression. *)
Definition matches_part (part : string) (n : node) : bool :=
  match n with
  | Identifier name => String.eqb part name
  | Literal (LString value) => String.eqb part value
  | _ => false
  end.

(** What the matcher built from ['React.createClass'] accepts: a member
    expression of exactly the two parts, a computed property being
    accepted only as a literal. *)
Definition matches_React_createClass (n : node) : bool :=
  match n with
  | MemberExpression object property computed =>
      (negb computed || bool_decide (is_Some (node_value property))) &&
      matches_part "React" object && matches_part "createClass" property
  | _ => false
  end.

Definition babel : Host BabelWorld :=
  {| generateUid := babel_generateUid;
     addImport := babel_addImport;
     isCreateClassCallExpression := matches_React_createClass |}.

Definition emptyWorld : BabelWorld :=
  {| uidCounter := 0; dynamicImportIds := ∅; importedSources := [] |}.

(** ** Example inputs

    A project in [/proj] whose file [/proj/src/Foo.js] is being
    transformed, with the plugin installed under [node_modules] or next
    to the sources. *)

Definition permissive : Path :=
  posix "/cwd" "/proj/node_modules/babel-plugin-react-transform/lib".

Definition conservative : Path :=
  posix "/cwd" "/proj/babel-plugin-react-transform/lib".

Definition opts_Foo (extra : option (gmap string option_value)) : FileOpts :=
  {| filename := "/proj/src/Foo.js"; extra := extra |}.

Definition file_Foo (extra : option (gmap string option_value)) : File :=
  {| opts := Some (opts_Foo extra) |}.

Definition wrap_lib : TransformTargetRecord :=
  {| target := "wrap-lib"; imports := None; locals := None |}.


(** Its second import, [/proj/src/Foo], is the file being processed. *)
Definition self_importing : TransformTargetRecord :=
  {| target := "./src/wrapper";
     imports := Some ["react"; "./src/Foo"];
     locals := None |}.

(** The same import written as an absolute path. *)
Definition self_importing_absolute : TransformTargetRecord :=
  {| target := "wrap-lib";
     imports := Some ["/proj/src/Foo.js"];
     locals := None |}.

Definition empty_function : node :=
  FunctionExpression None [] (BlockStatement []).

(** [class Foo { render() {} }] *)
Definition class_Foo : node :=
  ClassDeclaration (Some (Identifier "Foo")) None
    [MethodDefinition "method" (Identifier "render") empty_function false false]
    None.

(** [x;], a program statement with no component in it. *)
Definition statement_x : node := ExpressionStatement (Identifier "x").

(** ** The specification's notions

    Definitions that follow the specification's wording, and the
    properties of the walk used in the proofs; the theorems below
    compare them with the functions of the source. *)

(** The wrapped call [Tn(... T2(T1(ReactClass, uniqueId), uniqueId) ...,
    uniqueId)], read from the outside in: the transforms are given last
    one first. *)
Fixpoint threaded_call (outermost_first : list node) : node :=
  match outermost_first with
  | [] => Identifier "ReactClass"
  | Tn :: inner =>
      CallExpression Tn [threaded_call inner; Identifier "uniqueId"]
  end.

Definition wrapped_call_spec (transforms : list node) : node :=
  threaded_call (rev transforms).

(** The call found by following first arguments down to the bottom. *)
Fixpoint innermost_call (n : node) : option node :=
  match n with
  | CallExpression _ (argument :: _) =>
      match innermost_call argument with
      | Some call => Some call
      | None => Some n
      end
  | _ => None
  end.

(** A function of one parameter that returns that parameter. *)
Definition is_identity_function (f : node) : Prop :=
  ∃ parameter,
    f = FunctionExpression None [Identifier parameter]
          (BlockStatement [ReturnStatement (Some (Identifier parameter))]).

(** [function W(uniqueId) { return inner; }] *)
Definition wrapper_declaration (W inner : node) : node :=
  FunctionDeclaration (Some W) [Identifier "uniqueId"]
    (BlockStatement [ReturnStatement (Some inner)]).

(** [function (ReactClass) { return result; }] *)
Definition function_of_ReactClass (result : node) : node :=
  FunctionExpression None [Identifier "ReactClass"]
    (BlockStatement [ReturnStatement (Some result)]).



(** A property statically named "displayName": its key is the
    identifier [displayName], not computed, or the string literal
    ["displayName"]. *)
Definition named_displayName (p : property) : bool :=
  match p with
  | Property _ (Identifier name) _ false => String.eqb name "displayName"
  | Property _ (Literal (LString s)) _ _ => String.eqb s "displayName"
  | _ => false
  end.

(** The literal value of the first such property, if its value is a
    literal. *)
Definition displayName_property_value (props : list property) : option literal_value :=
  match List.find named_displayName props with
  | Some (Property _ _ value _) => node_value value
  | _ => None
  end.


(** What the guard of the source tests on a resolved import: its
    directory component is ["."], that is the consuming file's own
    directory for a path the permissive resolver has made relative to
    it, and its base name without extension is the file's. *)
Definition beside_file `{Path} (resolved filename : string) : Prop :=
  dir (parsePath resolved) = "." ∧
  name (parsePath resolved) = name (parsePath filename).

(** Some entry of the record's [imports] resolves to the file. *)
Definition imports_file `{Path} (filename : string) (t : TransformTargetRecord) : Prop :=
  ∃ imp resolved,
    imp ∈ default [] (imports t) ∧
    resolvePath imp filename = Ok resolved ∧
    beside_file resolved filename.


(** The declaration [var id = callee({filename, components, locals,
    imports})] synthesized for the record [t], with the identifier it
    binds. *)
Definition is_init_call (filename : string) (recordsId : node)
    (t : TransformTargetRecord) (call : node * node) : Prop :=
  ∃ callee importIds,
    length importIds = length (default [] (imports t)) ∧
    call.2 =
      VariableDeclaration "var" [
        VariableDeclarator call.1 (Some
          (CallExpression callee [
             ObjectExpression [
               Property "init" (Identifier "filename") (Literal (LString filename)) false;
               Property "init" (Identifier "components") recordsId false;
               Property "init" (Identifier "locals")
                 (ArrayExpression (map Identifier (default [] (locals t)))) false;
               Property "init" (Identifier "imports") (ArrayExpression importIds) false
             ]
           ]))
      ].



(** The records and the wrapper identifier are where they were. *)
Definition same_records (state state' : State) : Prop :=
  __reactTransformRecords state' = __reactTransformRecords state ∧
  __reactTransformWrapComponentId state' = __reactTransformWrapComponentId state.

(** The walk of [x] gives [x] back, leaves the host alone and keeps the
    records. *)
Definition walk_unchanged {world A} (f : A → State → M world (A * State)) (x : A)
  : Prop :=
  ∀ state w, ∃ state', f x state w = Ok ((x, state'), w) ∧ same_records state state'.

Definition record_count (state : State) : nat :=
  length (default [] (__reactTransformRecords state)).

(** The walk of [x] ends normally, keeps the wrapper identifier and
    drops no record; it adds one at least unless [x] is [free] of
    components. *)
Definition walk_grows {world A} (f : A → State → M world (A * State))
    (free : A → bool) (x : A) : Prop :=
  ∀ state w, ∃ x' state' w',
    f x state w = Ok ((x', state'), w') ∧
    __reactTransformWrapComponentId state' = __reactTransformWrapComponentId state ∧
    record_count state ≤ record_count state' ∧
    (free x = false → record_count state < record_count state').

(** Two walks that do the same on [x]. *)
Definition same_walk {world A} (f g : A → State → M world (A * State)) (x : A)
  : Prop :=
  ∀ state w, f x state w = g x state w.

(** ** Further notions

    The state along the walk, and what the further properties below
    say of it. *)

(** The depth counter as the two tests made on it read it: a counter
    that was never written counts as 0. *)
Definition depth_of (state : State) : Z :=
  default 0%Z (__reactTransformDepth state).

(** From [state] to [state'] as many functions were left as were
    entered, and a counter that was written still is. *)
Definition balanced (state state' : State) : Prop :=
  depth_of state' = depth_of state ∧
  (is_Some (__reactTransformDepth state) → is_Some (__reactTransformDepth state')).

(** The records of [state'] are those of [state] and, after them, the
    records [added]. *)
Definition records_extended (state state' : State) (added : list property) : Prop :=
  default [] (__reactTransformRecords state')
    = default [] (__reactTransformRecords state) ++ added.

(** From [state] to [state']: the depth is balanced, the wrapper
    identifier is the same, and records were only added after the ones
    there were. *)
Definition kept (state state' : State) : Prop :=
  balanced state state' ∧
  __reactTransformWrapComponentId state' = __reactTransformWrapComponentId state ∧
  ∃ added, records_extended state state' added.

(** The walk of [x] ends normally and keeps the state in that sense. *)
Definition walk_keeps {world A} (f : A → State → M world (A * State)) (x : A)
  : Prop :=
  ∀ state w, ∃ x' state' w',
    f x state w = Ok ((x', state'), w') ∧ kept state state'.

(** One record is appended, under the key [uniqueId]; the depth and the
    wrapper identifier are kept. *)
Definition record_added (state state' : State) (uniqueId : string) (definition : node)
  : Prop :=
  __reactTransformRecords state'
    = Some (default [] (__reactTransformRecords state) ++
            [Property "init" (Identifier uniqueId) definition false]) ∧
  __reactTransformDepth state' = __reactTransformDepth state ∧
  __reactTransformWrapComponentId state' = __reactTransformWrapComponentId state.

(** The call [wrapComponentId("uniqueId")] that wraps a component. *)
Definition wrapper_call (state : State) (uniqueId : string) : node :=
  CallExpression (__reactTransformWrapComponentId state) [Literal (LString uniqueId)].

(** The property [isInFunction: true] of a record. *)
Definition in_function_flag : property :=
  Property "init" (Identifier "isInFunction") (Literal (LBoolean true)) false.

(** A record whose descriptor says that the component is defined
    inside a function. *)
Definition flagged (record : property) : Prop :=
  ∃ uniqueId props,
    record = Property "init" (Identifier uniqueId) (ObjectExpression props) false ∧
    in_function_flag ∈ props.

(** From [state] to [state'] the depth is balanced, and the records
    added are all flagged. *)
Definition flags (state state' : State) : Prop :=
  balanced state state' ∧
  ∃ added, records_extended state state' added ∧ Forall flagged added.

(** The walk of [x], started inside a function, ends normally and
    flags every record it adds. *)
Definition walk_flags {world A} (f : A → State → M world (A * State)) (x : A)
  : Prop :=
  ∀ state w, (0 < depth_of state)%Z →
    ∃ x' state' w', f x state w = Ok ((x', state'), w') ∧ flags state state'.

(** A record whose descriptor does not say so. *)
Definition unflagged (record : property) : Prop :=
  ∃ uniqueId props,
    record = Property "init" (Identifier uniqueId) (ObjectExpression props) false ∧
    in_function_flag ∉ props.

(** From [state] to [state'] the depth is balanced, and none of the
    records added is flagged. *)
Definition unflags (state state' : State) : Prop :=
  balanced state state' ∧
  ∃ added, records_extended state state' added ∧ Forall unflagged added.

(** The walk of [x], started outside every function, ends normally and
    flags none of the records it adds. *)
Definition walk_unflags {world A} (f : A → State → M world (A * State)) (x : A)
  : Prop :=
  ∀ state w, (depth_of state ≤ 0)%Z →
    ∃ x' state' w', f x state w = Ok ((x', state'), w') ∧ unflags state state'.

(** A tree whose components are all outside functions: the functions
    in it, such as the methods of a class, hold no component. *)
Section OutsideFunctions.
Context {world : Type} `{Host world}.

Fixpoint components_outside_functions (n : node) : bool :=
  match n with
  | Identifier _ | Literal _ => true
  | MemberExpression object property _ =>
      components_outside_functions object && components_outside_functions property
  | CallExpression callee arguments | NewExpression callee arguments =>
      components_outside_functions callee &&
      forallb components_outside_functions arguments
  | ObjectExpression properties =>
      forallb components_outside_functions_property properties
  | ArrayExpression elements => forallb components_outside_functions elements
  | FunctionExpression _ _ _ | FunctionDeclaration _ _ _
  | ArrowFunctionExpression _ _ => no_component n
  | ClassExpression id superClass body decorators
  | ClassDeclaration id superClass body decorators =>
      from_option components_outside_functions true id &&
      from_option components_outside_functions true superClass &&
      forallb components_outside_functions_member body &&
      from_option (forallb components_outside_functions) true decorators
  | Decorator expression | ExpressionStatement expression =>
      components_outside_functions expression
  | BlockStatement body | Program body => forallb components_outside_functions body
  | ReturnStatement argument =>
      from_option components_outside_functions true argument
  | VariableDeclaration _ declarations =>
      forallb components_outside_functions declarations
  | VariableDeclarator id init =>
      components_outside_functions id &&
      from_option components_outside_functions true init
  | Other _ children => forallb components_outside_functions children
  end
with components_outside_functions_property (p : property) : bool :=
  match p with
  | Property _ key value _ =>
      components_outside_functions key && components_outside_functions value
  | SpreadProperty argument => components_outside_functions argument
  end
with components_outside_functions_member (m : member) : bool :=
  match m with
  | MethodDefinition _ key value _ _ =>
      components_outside_functions key && components_outside_functions value
  | ClassProperty key value _ _ =>
      components_outside_functions key &&
      from_option components_outside_functions true value
  end.

End OutsideFunctions.

(** A decorator the plugin pushes: the call of [W] on a string. *)
Definition is_wrapper (W d : node) : Prop :=
  ∃ uniqueId, d = Decorator (CallExpression W [Literal (LString uniqueId)]).

(** The tree on the right is the tree on the left with wrappers added,
    and nothing else changed: a class may have got one more decorator,
    a call of [W] on a string, after the ones it had; a call may have
    become the argument of the call of such a call; every other node is
    the same node over children related in this way. *)
#[local] Unset Elimination Schemes.
Inductive wrapping (W : node) : node → node → Prop :=
| wrapping_same n : wrapping W n n
| wrapping_call callee arguments call uniqueId :
    wrapping W (CallExpression callee arguments) call →
    wrapping W (CallExpression callee arguments)
      (CallExpression (CallExpression W [Literal (LString uniqueId)]) [call])
| wrapping_MemberExpression object object' property property' computed :
    wrapping W object object' → wrapping W property property' →
    wrapping W (MemberExpression object property computed)
      (MemberExpression object' property' computed)
| wrapping_CallExpression callee callee' arguments arguments' :
    wrapping W callee callee' → Forall2 (wrapping W) arguments arguments' →
    wrapping W (CallExpression callee arguments) (CallExpression callee' arguments')
| wrapping_NewExpression callee callee' arguments arguments' :
    wrapping W callee callee' → Forall2 (wrapping W) arguments arguments' →
    wrapping W (NewExpression callee arguments) (NewExpression callee' arguments')
| wrapping_ObjectExpression properties properties' :
    Forall2 (wrapping_property W) properties properties' →
    wrapping W (ObjectExpression properties) (ObjectExpression properties')
| wrapping_ArrayExpression elements elements' :
    Forall2 (wrapping W) elements elements' →
    wrapping W (ArrayExpression elements) (ArrayExpression elements')
| wrapping_FunctionExpression id id' params params' body body' :
    option_Forall2 (wrapping W) id id' → Forall2 (wrapping W) params params' →
    wrapping W body body' →
    wrapping W (FunctionExpression id params body) (FunctionExpression id' params' body')
| wrapping_ArrowFunctionExpression params params' body body' :
    Forall2 (wrapping W) params params' → wrapping W body body' →
    wrapping W (ArrowFunctionExpression params body)
      (ArrowFunctionExpression params' body')
| wrapping_FunctionDeclaration id id' params params' body body' :
    option_Forall2 (wrapping W) id id' → Forall2 (wrapping W) params params' →
    wrapping W body body' →
    wrapping W (FunctionDeclaration id params body)
      (FunctionDeclaration id' params' body')
| wrapping_ClassExpression id id' superClass superClass' body body'
    decorators decorators' decorated :
    option_Forall2 (wrapping W) id id' →
    option_Forall2 (wrapping W) superClass superClass' →
    Forall2 (wrapping_member W) body body' →
    option_Forall2 (Forall2 (wrapping W)) decorators decorators' →
    (decorated = decorators' ∨
     ∃ d, is_wrapper W d ∧ decorated = Some (default [] decorators' ++ [d])) →
    wrapping W (ClassExpression id superClass body decorators)
      (ClassExpression id' superClass' body' decorated)
| wrapping_ClassDeclaration id id' superClass superClass' body body'
    decorators decorators' decorated :
    option_Forall2 (wrapping W) id id' →
    option_Forall2 (wrapping W) superClass superClass' →
    Forall2 (wrapping_member W) body body' →
    option_Forall2 (Forall2 (wrapping W)) decorators decorators' →
    (decorated = decorators' ∨
     ∃ d, is_wrapper W d ∧ decorated = Some (default [] decorators' ++ [d])) →
    wrapping W (ClassDeclaration id superClass body decorators)
      (ClassDeclaration id' superClass' body' decorated)
| wrapping_Decorator expression expression' :
    wrapping W expression expression' →
    wrapping W (Decorator expression) (Decorator expression')
| wrapping_BlockStatement body body' :
    Forall2 (wrapping W) body body' →
    wrapping W (BlockStatement body) (BlockStatement body')
| wrapping_ReturnStatement argument argument' :
    option_Forall2 (wrapping W) argument argument' →
    wrapping W (ReturnStatement argument) (ReturnStatement argument')
| wrapping_ExpressionStatement expression expression' :
    wrapping W expression expression' →
    wrapping W (ExpressionStatement expression) (ExpressionStatement expression')
| wrapping_VariableDeclaration kind declarations declarations' :
    Forall2 (wrapping W) declarations declarations' →
    wrapping W (VariableDeclaration kind declarations)
      (VariableDeclaration kind declarations')
| wrapping_VariableDeclarator id id' init init' :
    wrapping W id id' → option_Forall2 (wrapping W) init init' →
    wrapping W (VariableDeclarator id init) (VariableDeclarator id' init')
| wrapping_Program body body' :
    Forall2 (wrapping W) body body' →
    wrapping W (Program body) (Program body')
| wrapping_Other type children children' :
    Forall2 (wrapping W) children children' →
    wrapping W (Other type children) (Other type children')
with wrapping_property (W : node) : property → property → Prop :=
| wrapping_Property kind key key' value value' computed :
    wrapping W key key' → wrapping W value value' →
    wrapping_property W (Property kind key value computed)
      (Property kind key' value' computed)
| wrapping_SpreadProperty argument argument' :
    wrapping W argument argument' →
    wrapping_property W (SpreadProperty argument) (SpreadProperty argument')
with wrapping_member (W : node) : member → member → Prop :=
| wrapping_MethodDefinition kind key key' value value' computed static :
    wrapping W key key' → wrapping W value value' →
    wrapping_member W (MethodDefinition kind key value computed static)
      (MethodDefinition kind key' value' computed static)
| wrapping_ClassProperty key key' value value' computed static :
    wrapping W key key' → option_Forall2 (wrapping W) value value' →
    wrapping_member W (ClassProperty key value computed static)
      (ClassProperty key' value' computed static).
#[local] Set Elimination Schemes.

(** The walk of [x], in a state whose wrapper identifier is [W], ends
    normally in such a state, with [x] changed as [R W] allows. *)
Definition walk_wraps {world A} (f : A → State → M world (A * State))
    (R : node → A → A → Prop) (x : A) : Prop :=
  ∀ W state w, __reactTransformWrapComponentId state = W →
    ∃ x' state' w',
      f x state w = Ok ((x', state'), w') ∧
      __reactTransformWrapComponentId state' = W ∧
      R W x x'.


(** The message of the error raised on [undefined.map]. *)
Definition map_of_undefined : exn :=
  TypeError "Cannot read property 'map' of undefined".

(** [parsePath] gives the directory ["."] only to paths that start with
    a dot. *)
Definition dot_directory_is_relative `{Path} : Prop :=
  ∀ s, dir (parsePath s) = "." → starts_with_dot s = true.

(** [React.createClass({ displayName: 'Bar' })] *)
Definition createClass_Bar : node :=
  CallExpression
    (MemberExpression (Identifier "React") (Identifier "createClass") false)
    [ObjectExpression
       [Property "init" (Identifier "displayName") (Literal (LString "Bar")) false]].


(** [function make() { class Foo { render() {} } }] *)
Definition function_make_Foo : node :=
  FunctionDeclaration (Some (Identifier "make")) [] (BlockStatement [class_Foo]).

(** ** Composition of the transforms *)

Section WrapComponent.

Lemma fold_left_threaded_call (Ts : list node) :
  fold_left
    (λ composed initTransformId,
       CallExpression initTransformId [composed; Identifier "uniqueId"])
    Ts (Identifier "ReactClass")
  = wrapped_call_spec Ts.
Proof.
  unfold wrapped_call_spec.
  induction Ts as [|T Ts IH] using rev_ind; [reflexivity|].
  rewrite fold_left_app, rev_app_distr. simpl. by rewrite IH.
Qed.

Lemma innermost_threaded_call (outer : list node) (T1 : node) :
  innermost_call (threaded_call (outer ++ [T1]))
  = Some (CallExpression T1 [Identifier "ReactClass"; Identifier "uniqueId"]).
Proof.
  induction outer as [|T outer IH]; [reflexivity|].
  simpl. simpl in IH. by rewrite IH.
Qed.

(** C3. For a non-empty list of transform identifiers [T1; ...; Tn],
    [defineWrapComponent W [T1; ...; Tn]] is a function of [uniqueId]
    returning a function of [ReactClass] whose body returns
    [Tn(...T2(T1(ReactClass, uniqueId), uniqueId)..., uniqueId)]: the
    last transform is the outermost call, wrapped around the composition
    of the ones before it, and the first transform is the innermost
    call, on [ReactClass] and [uniqueId]. *)
Theorem defineWrapComponent_threads_in_order (W : node) (Ts : list node) :
  Ts ≠ [] →
  defineWrapComponent W Ts
    = wrapper_declaration W (function_of_ReactClass (wrapped_call_spec Ts)) ∧
  (∃ init Tn, Ts = init ++ [Tn] ∧
     wrapped_call_spec Ts
       = CallExpression Tn [wrapped_call_spec init; Identifier "uniqueId"]) ∧
  (∃ T1 rest, Ts = T1 :: rest ∧
     innermost_call (wrapped_call_spec Ts)
       = Some (CallExpression T1 [Identifier "ReactClass"; Identifier "uniqueId"])).
Proof.
  intros Hne. split; [|split].
  - unfold defineWrapComponent, wrapper_declaration, function_of_ReactClass.
    by rewrite fold_left_threaded_call.
  - destruct Ts as [|T Ts] using rev_ind; [done|].
    exists Ts, T. split; [done|].
    unfold wrapped_call_spec. by rewrite rev_app_distr.
  - destruct Ts as [|T1 rest]; [done|].
    exists T1, rest. split; [done|].
    unfold wrapped_call_spec. simpl. apply innermost_threaded_call.
Qed.

Lemma defineWrapComponent_threads_in_order_witness :
  let A := Identifier "A" in
  let B := Identifier "B" in
  let C := Identifier "C" in
  let U := Identifier "uniqueId" in
  [A; B; C] ≠ [] ∧
  defineWrapComponent (Identifier "W") [A; B; C]
  = wrapper_declaration (Identifier "W")
      (function_of_ReactClass
         (CallExpression C
            [CallExpression B
               [CallExpression A [Identifier "ReactClass"; U]; U]; U])).
Proof.
  intros A B C U.
  assert (Hne : [A; B; C] ≠ []) by discriminate.
  split; [exact Hne|].
  exact (proj1 (defineWrapComponent_threads_in_order (Identifier "W") [A; B; C] Hne)).
Defined.

(** C4. With no transform, the inner function that
    [defineWrapComponent] synthesizes returns its [ReactClass] argument
    as it is: it is the identity function. *)
Theorem defineWrapComponent_empty_is_identity (W : node) :
  ∃ inner,
    defineWrapComponent W [] = wrapper_declaration W inner ∧
    inner = function_of_ReactClass (Identifier "ReactClass") ∧
    is_identity_function inner.
Proof.
  eexists. split; [reflexivity|]. split; [reflexivity|].
  by exists "ReactClass".
Qed.

End WrapComponent.
(** ** Component detection *)

Section Detector.




Lemma findDisplayName_props_spec (props : list property) :
  findDisplayName_props props = Ok (displayName_property_value props).
Proof.
  unfold displayName_property_value.
  induction props as [|p props IH]; [reflexivity|].
  simpl. destruct p as [kind key value computed|argument]; simpl.
  - destruct computed, key as [name|[s|n|b|]| | | | | | | | | | | | | | | | | | ];
      simpl; try exact IH;
      match goal with |- context [String.eqb ?a ?b] => destruct (String.eqb a b) end;
      simpl; done.
  - exact IH.
Qed.



End Detector.

(** ** Path resolution *)

Section Resolver.

(** C6. A specifier that starts with ['.'] is refused with
    [UnsafeRelativePathError] when the plugin is not installed under a
    [node_modules] directory (the conservative policy), which returns
    every other specifier unchanged; when the plugin is installed under
    [node_modules] (the permissive policy) the same specifier resolves
    to ['.'], the separator, and a path relative to the directory of the
    consuming file. *)
Theorem resolvePath_by_policy (conservative permissive : Path)
    (specifiedPath filePath : string) :
  starts_with_dot specifiedPath = true →
  @path_basename conservative (@parentDir conservative) ≠ "node_modules" →
  @path_basename permissive (@parentDir permissive) = "node_modules" →
  @resolvePath conservative specifiedPath filePath
    = Throw (UnsafeRelativePathError specifiedPath) ∧
  (∀ bare, starts_with_dot bare = false →
     @resolvePath conservative bare filePath = Ok bare) ∧
  @resolvePath permissive specifiedPath filePath
    = Ok ("." +:+ @path_sep permissive +:+
          @path_relative permissive
            (@path_dirname permissive filePath)
            (@path_resolve permissive
               [@path_join permissive
                  [@parentDir permissive; ".."; specifiedPath]])).
Proof.
  intros Hdot Hcons Hperm. unfold resolvePath.
  apply String.eqb_neq in Hcons. apply String.eqb_eq in Hperm.
  rewrite Hcons, Hperm. repeat split.
  - unfold resolvePathConservatively. by rewrite Hdot.
  - intros bare Hbare. unfold resolvePathConservatively. by rewrite Hbare.
  - unfold resolvePathAssumingWeAreInNodeModules. by rewrite Hdot.
Qed.

Lemma resolvePath_by_policy_witness :
  let conservative := posix "/cwd" "/proj/babel-plugin-react-transform/lib" in
  let permissive :=
    posix "/cwd" "/proj/node_modules/babel-plugin-react-transform/lib" in
  (starts_with_dot "./src/Foo" = true ∧
   @path_basename conservative (@parentDir conservative) ≠ "node_modules" ∧
   @path_basename permissive (@parentDir permissive) = "node_modules") ∧
  @resolvePath conservative "./src/Foo" "/proj/src/App.js"
    = Throw (UnsafeRelativePathError "./src/Foo") ∧
  @resolvePath conservative "react" "/proj/src/App.js" = Ok "react" ∧
  @resolvePath permissive "./src/Foo" "/proj/src/App.js" = Ok "./Foo".
Proof.
  intros conservative permissive.
  assert (Hdot : starts_with_dot "./src/Foo" = true) by reflexivity.
  assert (Hcons : @path_basename conservative (@parentDir conservative) ≠ "node_modules")
    by (vm_compute; discriminate).
  assert (Hperm : @path_basename permissive (@parentDir permissive) = "node_modules")
    by (vm_compute; reflexivity).
  split; [exact (conj Hdot (conj Hcons Hperm))|].
  destruct (resolvePath_by_policy conservative permissive
              "./src/Foo" "/proj/src/App.js" Hdot Hcons Hperm)
    as (Hthrow & Hbare & Hrel).
  split; [exact Hthrow|]. split; [exact (Hbare "react" eq_refl)|].
  exact Hrel.
Defined.

(** The POSIX library on the paths of the examples. *)
Example posix_parse_relative :
  Posix.parse "./Foo.js"
  = {| root := EmptyString; dir := "."; base := "Foo.js"; ext := ".js"; name := "Foo" |}.
Proof. reflexivity. Qed.

Example posix_parse_absolute :
  Posix.parse "/proj/src/Foo.js"
  = {| root := "/"; dir := "/proj/src"; base := "Foo.js"; ext := ".js"; name := "Foo" |}.
Proof. reflexivity. Qed.

Example posix_parse_bare :
  Posix.parse "react"
  = {| root := EmptyString; dir := EmptyString; base := "react";
       ext := EmptyString; name := "react" |}.
Proof. reflexivity. Qed.

Example posix_parentDir :
  @parentDir permissive = "/proj/node_modules" ∧
  @parentDir conservative = "/proj".
Proof. split; reflexivity. Qed.

Example posix_relative :
  Posix.relative "/cwd" "/proj/src/components" "/proj/lib/wrapper.js"
  = "../../lib/wrapper.js".
Proof. reflexivity. Qed.

Example posix_join :
  Posix.join ["/proj/node_modules"; ".."; "./src/Foo"] = "/proj/src/Foo".
Proof. reflexivity. Qed.

End Resolver.


(** ** Synthesis of the init-calls *)

Section InitCalls.
Context `{Path} {world : Type} `{Host world}.

Lemma bind_eq {A B} (m : M world A) (k : A → M world B) (w : world) :
  bind m k w = match m w with
               | Ok (a, w') => k a w'
               | Throw e => Throw e
               end.
Proof. reflexivity. Qed.

Lemma bind_Ok {A B} (m : M world A) (k : A → M world B) (w w' : world) (b : B) :
  bind m k w = Ok (b, w') →
  ∃ a w1, m w = Ok (a, w1) ∧ k a w1 = Ok (b, w').
Proof.
  rewrite bind_eq. destruct (m w) as [[a w1]|e]; [|discriminate].
  intros Hk. by exists a, w1.
Qed.

Lemma mapM_length {A B} (f : A → M world B) (l : list A) (w w' : world) (ys : list B) :
  mapM f l w = Ok (ys, w') → length ys = length l.
Proof.
  revert w w' ys. induction l as [|x l IH]; intros w w' ys; cbn [mapM].
  - by intros [= <- _].
  - intros Hm. apply bind_Ok in Hm as (y & w1 & _ & Hm).
    apply bind_Ok in Hm as (ys' & w2 & Hm & [= <- _]).
    simpl. by rewrite (IH _ _ _ Hm).
Qed.

Lemma isSameAsFileBeingProcessed_true (filename imp : string) :
  isSameAsFileBeingProcessed filename imp = Ok true ↔
  ∃ resolved, resolvePath imp filename = Ok resolved ∧ beside_file resolved filename.
Proof.
  unfold isSameAsFileBeingProcessed, beside_file, rbind.
  destruct (resolvePath imp filename) as [resolved|e].
  - split.
    + intros [= Hb]. apply andb_true_iff in Hb as [Hd Hn].
      apply String.eqb_eq in Hd, Hn. by exists resolved.
    + intros (r & [= <-] & Hd & Hn).
      apply String.eqb_eq in Hd, Hn. by rewrite Hd, Hn.
  - split; [discriminate|]. by intros (r & Hr & _).
Qed.


(** When [some] answers, its answer is whether an element satisfies
    the test. *)
Lemma some_isSameAsFileBeingProcessed_Ok (filename : string) (l : list string) (b : bool) :
  some (isSameAsFileBeingProcessed filename) l = Ok b →
  (b = true ↔
   ∃ imp resolved, imp ∈ l ∧ resolvePath imp filename = Ok resolved ∧
                   beside_file resolved filename).
Proof.
  induction l as [|imp l IH]; simpl.
  - intros [= <-]. split; [done|].
    intros (imp & r & Hin & _). by apply elem_of_nil in Hin.
  - unfold rbind.
    destruct (isSameAsFileBeingProcessed filename imp) as [[|]|e] eqn:Hb;
      [| |discriminate].
    + intros [= <-]. split; [|done]. intros _.
      apply isSameAsFileBeingProcessed_true in Hb as (r & Hr & Hs).
      exists imp, r. split; [by left | done].
    + intros Hsome. rewrite (IH Hsome). split.
      * intros (i & r & Hin & Hr & Hs). exists i, r. split; [by right | done].
      * intros (i & r & Hin & Hr & Hs).
        apply elem_of_cons in Hin as [->|Hin]; [|by exists i, r].
        assert (Hc : isSameAsFileBeingProcessed filename imp = Ok true)
          by (apply isSameAsFileBeingProcessed_true; by exists r).
        congruence.
Qed.



(** What [defineInitTransformCall] has done when it returns: nothing
    is returned exactly when an import resolves to the file, in which
    case only the identifier of the first line has been generated and
    nothing has been imported; otherwise the init-call declaration of
    the record is returned. *)
Lemma defineInitTransformCall_Ok (file : File) (o : FileOpts) (recordsId : node)
    (t : TransformTargetRecord) (w w' : world) (r : option (node * node)) :
  opts file = Some o →
  defineInitTransformCall file recordsId t w = Ok (r, w') →
  (r = None ↔ imports_file (filename o) t) ∧
  (r = None → w' = (generateUid "reactComponentWrapper" w).2) ∧
  (∀ call, r = Some call → is_init_call (filename o) recordsId t call).
Proof.
  intros Hopts.
  unfold defineInitTransformCall, generateUidIdentifier.
  rewrite Hopts.
  rewrite bind_eq, bind_eq. unfold call at 1. unfold ret at 1.
  destruct (generateUid "reactComponentWrapper" w) as [uid w1] eqn:Euid.
  cbn [snd].
  rewrite bind_eq. unfold lift at 1.
  destruct (some (isSameAsFileBeingProcessed (filename o)) (default [] (imports t)))
    as [skip|e] eqn:Hsome; [|discriminate].
  pose proof (some_isSameAsFileBeingProcessed_Ok _ _ _ Hsome) as Hiff.
  destruct skip.
  - intros [= <- <-]. split; [|done].
    split; intros _; [|done]. by apply Hiff.
  - rewrite bind_eq. unfold lift at 1.
    destruct (resolvePath (target t) (filename o)) as [targetPath|]; [|discriminate].
    rewrite bind_eq. unfold call at 1.
    destruct (addImport targetPath None None w1) as [callee w2].
    rewrite bind_eq.
    match goal with
    | |- context [mapM ?f ?l ?w] => destruct (mapM f l w) as [[ids w3]|] eqn:Hm
    end; [|discriminate].
    unfold ret. intros [= <- <-].
    split; [|split; [done|]].
    + split; [done|]. intros Hi. apply Hiff in Hi. discriminate.
    + intros call' [= <-]. exists callee, ids. split; [|done].
      by apply mapM_length in Hm.
Qed.






End InitCalls.

Section InitCallsRuns.



End InitCallsRuns.

(** ** The walk *)

Section Walk.
Context {world : Type} `{Host world}.
Variable file : File.

Lemma mapS_unchanged {A} (f : A → State → M world (A * State))
    (free : A → bool) (l : list A) :
  list_all A (λ x, free x = true → walk_unchanged f x) l →
  forallb free l = true →
  walk_unchanged (mapS f) l.
Proof.
  induction 1 as [|x Hx l _ IH]; intros Hfree state w; simpl.
  - exists state. by split.
  - simpl in Hfree. apply andb_true_iff in Hfree as [Hfx Hfl].
    rewrite bind_eq.
    destruct (Hx Hfx state w) as (s1 & -> & Hr1 & Hw1).
    rewrite bind_eq.
    destruct (IH Hfl s1 w) as (s2 & -> & Hr2 & Hw2).
    exists s2. split; [done|]. split; congruence.
Qed.

Lemma optS_unchanged {A} (f : A → State → M world (A * State))
    (free : A → bool) (o : option A) :
  option_all A (λ x, free x = true → walk_unchanged f x) o →
  from_option free true o = true →
  walk_unchanged (optS f) o.
Proof.
  destruct 1 as [x Hx|]; intros Hfree state w; simpl.
  - rewrite bind_eq.
    destruct (Hx Hfree state w) as (s1 & -> & Hs1). by exists s1.
  - exists state. by split.
Qed.

Lemma decorators_unchanged (o : option (list node)) :
  option_all (list node)
    (list_all node (λ n, no_component n = true → walk_unchanged (traverse file) n)) o →
  from_option (forallb no_component) true o = true →
  walk_unchanged (optS (mapS (traverse file))) o.
Proof.
  intros Hall. apply (optS_unchanged _ (forallb no_component)).
  destruct Hall as [l Hl|]; constructor.
  by apply mapS_unchanged.
Qed.

Lemma Class_not_componentish (n : node) (state : State) :
  negb (isComponentishClass n) = true → Class n file state = ret (n, state).
Proof. unfold Class. by intros ->. Qed.

Lemma CallExpression_exit_not_createClass (n : node) (state : State) :
  negb (isCreateClass (Some n)) = true →
  CallExpression_exit n file state = ret (None, state).
Proof. unfold CallExpression_exit. by intros ->. Qed.

Lemma pushed_decorators_same (n : node) : pushed_decorators n n = [].
Proof. unfold pushed_decorators. apply drop_all. Qed.

(** Unfolding one level of the walk, the hooks and the walks of the
    children staying folded. *)
Ltac walk_cbn :=
  cbn -[Class CallExpression_exit mapS optS Function_enter Function_exit
        isComponentishClass isCreateClass pushed_decorators].

Ltac walk_fold :=
  fold (traverse file) (traverse_property file) (traverse_member file).

Ltac walk_norm := walk_cbn; walk_fold; unfold bind, ret; walk_cbn; walk_fold.

(** One child of the node under the walk: its induction hypothesis
    gives the result of its walk, which is rewritten in the goal. *)
Ltac unchanged_with H s w :=
  let E := fresh "E" in
  destruct (H s w) as (? & E & ?); rewrite E; clear E.

Ltac unchanged_child :=
  match goal with
  | IH : option_all (list node) _ ?o
    |- context [optS (mapS (traverse file)) ?o ?s ?w] =>
      unchanged_with (decorators_unchanged o IH ltac:(assumption)) s w
  | IH : _ → walk_unchanged (traverse file) ?n
    |- context [traverse file ?n ?s ?w] =>
      unchanged_with (IH ltac:(assumption)) s w
  | IH : list_all node _ ?l |- context [mapS (traverse file) ?l ?s ?w] =>
      unchanged_with
        (mapS_unchanged (traverse file) no_component l IH ltac:(assumption)) s w
  | IH : list_all property _ ?l
    |- context [mapS (traverse_property file) ?l ?s ?w] =>
      unchanged_with
        (mapS_unchanged (traverse_property file) no_component_property l IH
           ltac:(assumption)) s w
  | IH : list_all member _ ?l
    |- context [mapS (traverse_member file) ?l ?s ?w] =>
      unchanged_with
        (mapS_unchanged (traverse_member file) no_component_member l IH
           ltac:(assumption)) s w
  | IH : option_all node _ ?o |- context [optS (traverse file) ?o ?s ?w] =>
      unchanged_with
        (optS_unchanged (traverse file) no_component o IH ltac:(assumption)) s w
  end.

Ltac split_free H :=
  repeat match type of H with
         | _ && _ = true =>
             let H' := fresh "Hf" in
             apply andb_true_iff in H as [H H']; try split_free H'
         end.

(** One constructor of the tree: the hooks do nothing on a node that is
    no component, and the children come back as they were. *)
Ltac unchanged_case :=
  intros;
  match goal with
  | Hfree : _ = true |- walk_unchanged _ _ =>
      cbn -[isComponentishClass isCreateClass] in Hfree;
      fold no_component no_component_property no_component_member in Hfree;
      split_free Hfree
  end;
  intros state w;
  walk_norm;
  try (rewrite Class_not_componentish by assumption; walk_norm);
  repeat (unchanged_child; walk_norm);
  try (rewrite CallExpression_exit_not_createClass by assumption; walk_norm);
  try rewrite pushed_decorators_same;
  cbn -[Function_enter Function_exit];
  eexists; (split; [reflexivity|]);
  unfold same_records in *; cbn in *; intuition congruence.

(** The walk of a tree without components changes neither the tree nor
    the records, and asks nothing of the host. *)
Lemma traverse_no_component (n : node) :
  no_component n = true → walk_unchanged (traverse file) n.
Proof.
  apply (node_mut
           (λ n, no_component n = true → walk_unchanged (traverse file) n)
           (λ p, no_component_property p = true →
                 walk_unchanged (traverse_property file) p)
           (λ m, no_component_member m = true →
                 walk_unchanged (traverse_member file) m));
    unchanged_case.
Qed.

Lemma traverse_body_no_component (body : list node) :
  forallb no_component body = true →
  walk_unchanged (mapS (traverse file)) body.
Proof.
  apply mapS_unchanged, list_all_forall. apply traverse_no_component.
Qed.

(** *** Every component found is recorded *)

Lemma unchanged_grows {A} (f : A → State → M world (A * State))
    (free : A → bool) (x : A) :
  free x = true → walk_unchanged f x → walk_grows f free x.
Proof.
  intros Hfree Hx state w.
  destruct (Hx state w) as (s' & E & Hr & Hw).
  exists x, s', w. split; [done|]. split; [done|].
  unfold record_count. rewrite Hr. split; [lia | congruence].
Qed.

Lemma mapS_grows {A} (f : A → State → M world (A * State))
    (free : A → bool) (l : list A) :
  list_all A (walk_grows f free) l → walk_grows (mapS f) (forallb free) l.
Proof.
  induction 1 as [|x Hx l _ IH]; intros state w; simpl.
  - exists [], state, w. repeat split; [lia | discriminate].
  - rewrite bind_eq.
    destruct (Hx state w) as (x' & s1 & w1 & -> & Hw1 & Hle1 & Hlt1).
    rewrite bind_eq.
    destruct (IH s1 w1) as (l' & s2 & w2 & -> & Hw2 & Hle2 & Hlt2).
    exists (x' :: l'), s2, w2.
    split; [done|]. split; [congruence|]. split; [lia|].
    intros Hfree. apply andb_false_iff in Hfree as [Hf|Hf];
      [specialize (Hlt1 Hf) | specialize (Hlt2 Hf)]; lia.
Qed.

Lemma optS_grows {A} (f : A → State → M world (A * State))
    (free : A → bool) (o : option A) :
  option_all A (walk_grows f free) o →
  walk_grows (optS f) (from_option free true) o.
Proof.
  destruct 1 as [x Hx|]; intros state w; simpl.
  - rewrite bind_eq.
    destruct (Hx state w) as (x' & s1 & w1 & -> & Hw1 & Hle1 & Hlt1).
    exists (Some x'), s1, w1. by repeat split.
  - exists None, state, w. repeat split; [lia | discriminate].
Qed.

Lemma decorators_grow (o : option (list node)) :
  option_all (list node)
    (list_all node (walk_grows (traverse file) no_component)) o →
  walk_grows (optS (mapS (traverse file)))
    (from_option (forallb no_component) true) o.
Proof.
  intros Hall. apply optS_grows.
  destruct Hall as [l Hl|]; constructor. by apply mapS_grows.
Qed.

(** [findDisplayName] does not raise on what the detector accepts. *)
Lemma findDisplayName_createClass (n : node) :
  isCreateClass (Some n) = true → ∃ v, findDisplayName n = Ok v.
Proof.
  destruct n as [| | |callee args| | | | | | | | | | | | | | | | ];
    try discriminate.
  simpl. destruct (isCreateClassCallExpression callee); [|discriminate]. simpl.
  destruct args as [|first [|? ?]]; try discriminate.
  destruct first; try discriminate. intros _.
  unfold findDisplayName. simpl. rewrite findDisplayName_props_spec. by eexists.
Qed.

Lemma findDisplayName_class (n : node) :
  isClass n = true → ∃ v, findDisplayName n = Ok v.
Proof.
  destruct n as [| | | | | | | | | |id ? ? ?|id ? ? ?| | | | | | | | ];
    try discriminate; intros _; unfold findDisplayName; simpl;
    (destruct id; by eexists).
Qed.

Lemma addComponentRecord_grows (n : node) (state : State) (w : world) :
  (∃ v, findDisplayName n = Ok v) →
  ∃ uniqueId state' w',
    addComponentRecord n file state w = Ok ((uniqueId, state'), w') ∧
    __reactTransformWrapComponentId state' = __reactTransformWrapComponentId state ∧
    record_count state' = S (record_count state).
Proof.
  intros [v Hv]. unfold addComponentRecord, createComponentRecord.
  rewrite !bind_eq. unfold lift at 1. rewrite Hv.
  rewrite bind_eq. unfold call at 1.
  destruct (generateUid _ w) as [uid w1]. unfold ret.
  eexists _, _, _. split; [reflexivity|]. split; [done|].
  unfold record_count. cbn. rewrite length_app. simpl. lia.
Qed.

Lemma Class_grows (n : node) (state : State) (w : world) :
  isClass n = true →
  ∃ n1 state' w',
    Class n file state w = Ok ((n1, state'), w') ∧
    __reactTransformWrapComponentId state' = __reactTransformWrapComponentId state ∧
    record_count state ≤ record_count state' ∧
    (isComponentishClass n = true → record_count state < record_count state').
Proof.
  intros Hclass. unfold Class.
  destruct (isComponentishClass n); cbn [negb].
  - rewrite bind_eq.
    destruct (addComponentRecord_grows n state w (findDisplayName_class n Hclass))
      as (uid & s1 & w1 & -> & Hw & Hc).
    unfold ret. eexists _, s1, w1.
    split; [reflexivity|]. split; [done|]. split; [lia|]. intros _. lia.
  - exists n, state, w. repeat split; [lia | discriminate].
Qed.

Lemma CallExpression_exit_grows (n : node) (state : State) (w : world) :
  ∃ r state' w',
    CallExpression_exit n file state w = Ok ((r, state'), w') ∧
    __reactTransformWrapComponentId state' = __reactTransformWrapComponentId state ∧
    record_count state ≤ record_count state' ∧
    (isCreateClass (Some n) = true → record_count state < record_count state').
Proof.
  unfold CallExpression_exit.
  destruct (isCreateClass (Some n)) eqn:Hcc; cbn [negb].
  - rewrite bind_eq.
    destruct (addComponentRecord_grows n state w (findDisplayName_createClass n Hcc))
      as (uid & s1 & w1 & -> & Hw & Hc).
    unfold ret. eexists _, s1, w1.
    split; [reflexivity|]. split; [done|]. split; [lia|]. intros _. lia.
  - exists None, state, w. repeat split; [lia | discriminate].
Qed.

Lemma record_count_Function_enter (state : State) :
  record_count (Function_enter state) = record_count state.
Proof. reflexivity. Qed.

Lemma record_count_Function_exit (state : State) :
  record_count (Function_exit state) = record_count state.
Proof. reflexivity. Qed.

Ltac grows_with H s w :=
  let E := fresh "E" in
  destruct (H s w) as (? & ? & ? & E & ? & ? & ?); rewrite E; clear E.

(** One step of the walk: a child, or a hook. *)
Ltac grows_step :=
  match goal with
  | IH : option_all (list node) _ ?o
    |- context [optS (mapS (traverse file)) ?o ?s ?w] =>
      grows_with (decorators_grow o IH) s w
  | IH : walk_grows (traverse file) _ ?n |- context [traverse file ?n ?s ?w] =>
      grows_with IH s w
  | IH : list_all node _ ?l |- context [mapS (traverse file) ?l ?s ?w] =>
      grows_with (mapS_grows (traverse file) no_component l IH) s w
  | IH : list_all property _ ?l
    |- context [mapS (traverse_property file) ?l ?s ?w] =>
      grows_with (mapS_grows (traverse_property file) no_component_property l IH) s w
  | IH : list_all member _ ?l
    |- context [mapS (traverse_member file) ?l ?s ?w] =>
      grows_with (mapS_grows (traverse_member file) no_component_member l IH) s w
  | IH : option_all node _ ?o |- context [optS (traverse file) ?o ?s ?w] =>
      grows_with (optS_grows (traverse file) no_component o IH) s w
  | |- context [Class ?n file ?s ?w] =>
      grows_with (λ s w, Class_grows n s w eq_refl) s w
  | |- context [CallExpression_exit ?n file ?s ?w] =>
      grows_with (CallExpression_exit_grows n) s w
  end.

(** One constructor of the tree: every step ends normally and drops no
    record, and if the node is not free of components then the hook
    that detects it, or the child that holds one, adds a record. *)
Ltac grows_case :=
  intros;
  intros state w;
  walk_norm;
  repeat (grows_step; walk_norm);
  eexists _, _, _; (split; [reflexivity|]);
  rewrite ?record_count_Function_enter, ?record_count_Function_exit in *;
  (split; [cbn in *; congruence|]);
  (split; [lia|]);
  let Hfree := fresh "Hfree" in
  intros Hfree;
  cbn -[isComponentishClass isCreateClass] in Hfree;
  fold no_component no_component_property no_component_member in Hfree;
  repeat match goal with
         | Hlt : ?b = false → _ < _ |- _ =>
             destruct b; [clear Hlt | specialize (Hlt eq_refl)]
         | Hlt : ?b = true → _ < _ |- _ =>
             destruct b; [specialize (Hlt eq_refl) | clear Hlt]
         end;
  try lia; try discriminate.

(** The walk never raises, and it records a component for every tree
    that is not free of them. *)
Lemma traverse_grows (n : node) : walk_grows (traverse file) no_component n.
Proof.
  apply (node_mut
           (walk_grows (traverse file) no_component)
           (walk_grows (traverse_property file) no_component_property)
           (walk_grows (traverse_member file) no_component_member)).
  all: try (grows_case; fail).
  (* A call: when its parts are free of components they come back
     unchanged, and the exit hook sees the call as it was. *)
  intros callee IHc args IHa.
  destruct (no_component callee) eqn:Hc;
    destruct (forallb no_component args) eqn:Ha;
    [|grows_case..].
  destruct (isCreateClass (Some (CallExpression callee args))) eqn:Hcc.
  - intros state w. walk_norm.
    destruct (traverse_no_component callee Hc state w) as (s1 & E1 & Hr1 & Hw1).
    rewrite E1. walk_norm.
    destruct (traverse_body_no_component args Ha s1 w) as (s2 & E2 & Hr2 & Hw2).
    rewrite E2. walk_norm.
    destruct (CallExpression_exit_grows (CallExpression callee args) s2 w)
      as (r & s3 & w3 & E3 & Hw3 & Hle3 & Hlt3).
    rewrite E3. walk_norm.
    eexists _, _, _. split; [reflexivity|].
    assert (record_count s2 = record_count state)
      by (unfold record_count; congruence).
    split; [congruence|]. split; [lia|]. intros _. specialize (Hlt3 Hcc). lia.
  - apply unchanged_grows; [|apply traverse_no_component];
      cbn -[isCreateClass]; fold no_component; by rewrite Hcc, Hc, Ha.
Qed.

Lemma traverse_body_grows (body : list node) :
  walk_grows (mapS (traverse file)) (forallb no_component) body.
Proof. apply mapS_grows, list_all_forall. apply traverse_grows. Qed.

End Walk.

(** *** The walk does not look at the file's options *)

Section WalkFile.
Context {world : Type} `{Host world}.
Variables file file' : File.

Lemma mapS_ext {A} (f g : A → State → M world (A * State)) (l : list A) :
  list_all A (same_walk f g) l → same_walk (mapS f) (mapS g) l.
Proof.
  induction 1 as [|x Hx l _ IH]; intros state w; simpl; [reflexivity|].
  rewrite !bind_eq, (Hx state w).
  destruct (g x state w) as [[[x' s1] w1]|e]; [|reflexivity].
  rewrite !bind_eq, (IH s1 w1). reflexivity.
Qed.

Lemma optS_ext {A} (f g : A → State → M world (A * State)) (o : option A) :
  option_all A (same_walk f g) o → same_walk (optS f) (optS g) o.
Proof.
  destruct 1 as [x Hx|]; intros state w; simpl; [|reflexivity].
  by rewrite !bind_eq, (Hx state w).
Qed.

Lemma decorators_ext (o : option (list node)) :
  option_all (list node)
    (list_all node (same_walk (traverse file) (traverse file'))) o →
  same_walk (optS (mapS (traverse file))) (optS (mapS (traverse file'))) o.
Proof.
  intros Hall. apply optS_ext.
  destruct Hall as [l Hl|]; constructor. by apply mapS_ext.
Qed.

Ltac walk_cbn :=
  cbn -[Class CallExpression_exit mapS optS Function_enter Function_exit
        isComponentishClass isCreateClass pushed_decorators].

Ltac walk_fold :=
  fold (traverse file) (traverse_property file) (traverse_member file)
       (traverse file') (traverse_property file') (traverse_member file').

Ltac walk_norm := walk_cbn; walk_fold; unfold bind, ret; walk_cbn; walk_fold.

(** One step of the walk on the left is the same step on the right:
    the children by induction, the hooks because they pass the file on
    to [createComponentRecord], which does not read it. *)
Ltac ext_step :=
  match goal with
  | IH : option_all (list node) _ ?o
    |- context [optS (mapS (traverse file)) ?o ?s ?w] =>
      rewrite (decorators_ext o IH s w)
  | IH : same_walk (traverse file) _ ?n |- context [traverse file ?n ?s ?w] =>
      rewrite (IH s w)
  | IH : list_all node _ ?l |- context [mapS (traverse file) ?l ?s ?w] =>
      rewrite (mapS_ext _ _ l IH s w)
  | IH : list_all property _ ?l
    |- context [mapS (traverse_property file) ?l ?s ?w] =>
      rewrite (mapS_ext _ _ l IH s w)
  | IH : list_all member _ ?l
    |- context [mapS (traverse_member file) ?l ?s ?w] =>
      rewrite (mapS_ext _ _ l IH s w)
  | IH : option_all node _ ?o |- context [optS (traverse file) ?o ?s ?w] =>
      rewrite (optS_ext _ _ o IH s w)
  | |- context [Class ?n file ?s ?w] =>
      change (Class n file s w) with (Class n file' s w)
  | |- context [CallExpression_exit ?n file ?s ?w] =>
      change (CallExpression_exit n file s w)
        with (CallExpression_exit n file' s w)
  end.

Ltac ext_destruct :=
  match goal with
  | |- match ?x with _ => _ end = match ?x with _ => _ end =>
      destruct x as [[[? ?] ?]|?]; [|reflexivity]
  end.

Ltac ext_case :=
  intros; intros state w; walk_norm;
  repeat (ext_step; ext_destruct; walk_norm);
  try reflexivity.

Lemma traverse_ignores_file (n : node) :
  same_walk (traverse file) (traverse file') n.
Proof.
  apply (node_mut
           (same_walk (traverse file) (traverse file'))
           (same_walk (traverse_property file) (traverse_property file'))
           (same_walk (traverse_member file) (traverse_member file')));
    ext_case.
Qed.

Lemma traverse_body_ignores_file (body : list node) :
  same_walk (mapS (traverse file)) (mapS (traverse file')) body.
Proof. apply mapS_ext, list_all_forall. apply traverse_ignores_file. Qed.

End WalkFile.

(** ** Program exit *)

Section ProgramExit.
Context `{Path} {world : Type} `{Host world}.

Lemma Program_exit_without_records (n : node) (file : File) (state : State) (w : world) :
  foundComponentRecords state = false →
  Program_exit n file state w = Ok ((None, state), w).
Proof. unfold Program_exit. by intros ->. Qed.


Lemma getPluginOptions_not_array (file : File) (o : FileOpts)
    (ex : gmap string option_value) :
  opts file = Some o → extra o = Some ex →
  (ex !! "react-transform" = None ∨
   ∃ v, ex !! "react-transform" = Some (OptNotArray v)) →
  getPluginOptions file = Throw ConfigurationError.
Proof.
  unfold getPluginOptions. intros -> -> [->|[v ->]]; reflexivity.
Qed.

Lemma found_record_count (state : State) :
  foundComponentRecords state = true ↔ 0 < record_count state.
Proof.
  unfold foundComponentRecords, record_count.
  destruct (__reactTransformRecords state) as [records|]; simpl.
  - apply Nat.ltb_lt.
  - split; [discriminate | lia].
Qed.

(** [Program.enter] and the walk of the statements: the walk ends
    normally, and it has recorded a component if the statements hold
    one. *)
Lemma walk_of_file (file : File) (body : list node) (w : world) :
  ∃ state0 w0 body' state1 w1,
    Program_enter w = Ok (state0, w0) ∧
    mapS (traverse file) body state0 w0 = Ok ((body', state1), w1) ∧
    (forallb no_component body = false → foundComponentRecords state1 = true).
Proof.
  unfold Program_enter, generateUidIdentifier.
  rewrite !bind_eq. unfold call, ret.
  destruct (generateUid "wrapComponent" w) as [uid w0].
  eexists _, w0.
  match goal with
  | |- context [Ok (?s, w0) = Ok _] =>
      destruct (traverse_body_grows file body s w0)
        as (body' & state1 & w1 & Hwalk & _ & _ & Hlt)
  end.
  exists body', state1, w1. split; [reflexivity|]. split; [exact Hwalk|].
  intros Hfree. apply found_record_count. specialize (Hlt Hfree). lia.
Qed.


(** C2, as amended. When [file.opts.extra] exists and its
    ["react-transform"] entry is absent or is not an array,
    [Program.exit] fails with [ConfigurationError] as soon as a
    component has been recorded, and so does the transform of every file
    in which a component-like node is detected: there is no output
    tree. *)
Theorem missing_configuration_is_fatal (file : File) (o : FileOpts)
    (ex : gmap string option_value) :
  opts file = Some o →
  extra o = Some ex →
  (ex !! "react-transform" = None ∨
   ∃ v, ex !! "react-transform" = Some (OptNotArray v)) →
  (∀ n state w,
     foundComponentRecords state = true →
     Program_exit n file state w = Throw ConfigurationError) ∧
  (∀ body w,
     forallb no_component body = false →
     transform file body w = Throw ConfigurationError).
Proof.
  intros Hopts Hextra Hbad.
  assert (Hexit : ∀ n state w,
            foundComponentRecords state = true →
            Program_exit n file state w = Throw ConfigurationError).
  { intros n state w Hfound. unfold Program_exit. rewrite Hfound. cbn [negb].
    rewrite bind_eq.
    by rewrite (getPluginOptions_not_array file o ex Hopts Hextra Hbad). }
  split; [exact Hexit|].
  intros body w Hcomponent.
  destruct (walk_of_file file body w)
    as (state0 & w0 & body' & state1 & w1 & Henter & Hwalk & Hfound).
  unfold transform. rewrite bind_eq, Henter, bind_eq, Hwalk, bind_eq.
  by rewrite (Hexit _ _ _ (Hfound Hcomponent)).
Qed.

(** The transform of a file without components, step by step. *)
Lemma transform_no_component (file : File) (body : list node) (w : world) :
  forallb no_component body = true →
  ∃ state state',
    let w' := (generateUid "wrapComponent" w).2 in
    Program_enter w = Ok (state, w') ∧
    mapS (traverse file) body state w' = Ok ((body, state'), w') ∧
    foundComponentRecords state' = false ∧
    transform file body w = Ok (Program body, w').
Proof.
  intros Hfree.
  unfold transform, Program_enter, generateUidIdentifier.
  rewrite !bind_eq. unfold call at 1 2. unfold ret at 1 2 3 4.
  destruct (generateUid "wrapComponent" w) as [uid w']. cbn [snd].
  set (state := {| __reactTransformDepth := None;
                   __reactTransformRecords := None;
                   __reactTransformWrapComponentId := Identifier uid |}).
  destruct (traverse_body_no_component file body Hfree state w')
    as (state' & Hwalk & Hrecords & _).
  assert (Hfound : foundComponentRecords state' = false).
  { unfold foundComponentRecords. by rewrite Hrecords. }
  exists state, state'.
  split; [done|]. split; [done|]. split; [done|].
  rewrite bind_eq, Hwalk, bind_eq.
  by rewrite Program_exit_without_records.
Qed.

(** C5. In a file where no component-like node is detected, the walk
    leaves the statements as they are and records nothing, so
    [Program.exit] returns without a replacement: the output tree is the
    input tree. *)
Theorem no_component_no_change (file : File) (body : list node) (w : world) :
  forallb no_component body = true →
  ∃ state state' w',
    Program_enter w = Ok (state, w') ∧
    mapS (traverse file) body state w' = Ok ((body, state'), w') ∧
    foundComponentRecords state' = false ∧
    Program_exit (Program body) file state' w' = Ok ((None, state'), w') ∧
    transform file body w = Ok (Program body, w').
Proof.
  intros Hfree.
  destruct (transform_no_component file body w Hfree)
    as (state & state' & Henter & Hwalk & Hfound & Htransform).
  exists state, state', (generateUid "wrapComponent" w).2.
  split; [done|]. split; [done|]. split; [done|].
  split; [by apply Program_exit_without_records | done].
Qed.

(** C10. The configuration is only read by [Program.exit], and only
    after it has found records: the walk of the statements is the same
    whatever the file's options are, without records [Program.exit]
    returns at once whatever they are, and the transform of a file
    without component-like nodes completes with the tree it was given,
    for every configuration, be it absent or malformed. *)
Theorem configuration_not_read_without_components (body : list node) (w : world) :
  forallb no_component body = true →
  (∀ file file' state w0,
     mapS (traverse file) body state w0 = mapS (traverse file') body state w0) ∧
  (∀ n file state w0,
     foundComponentRecords state = false →
     Program_exit n file state w0 = Ok ((None, state), w0)) ∧
  ∃ w', ∀ file,
    transform file body w = Ok (Program body, w') ∧
    transform file body w ≠ Throw ConfigurationError.
Proof.
  intros Hfree.
  split; [intros; by apply traverse_body_ignores_file|].
  split; [intros; by apply Program_exit_without_records|].
  exists (generateUid "wrapComponent" w).2. intros file.
  destruct (transform_no_component file body w Hfree)
    as (state & state' & _ & _ & _ & Htransform).
  rewrite Htransform. by split.
Qed.

End ProgramExit.

Section ProgramExitRuns.


Lemma missing_configuration_is_fatal_witness :
  let file := file_Foo (Some ∅) in
  (opts file = Some (opts_Foo (Some ∅)) ∧
   (∅ : gmap string option_value) !! "react-transform" = None ∧
   forallb (@no_component _ babel) [class_Foo] = false) ∧
  @transform permissive _ babel file [class_Foo] emptyWorld
    = Throw ConfigurationError.
Proof.
  intros file.
  assert (Hopts : opts file = Some (opts_Foo (Some ∅))) by reflexivity.
  assert (Habsent : (∅ : gmap string option_value) !! "react-transform" = None)
    by reflexivity.
  assert (Hcomponent : forallb (@no_component _ babel) [class_Foo] = false)
    by reflexivity.
  split; [exact (conj Hopts (conj Habsent Hcomponent))|].
  exact (proj2 (@missing_configuration_is_fatal permissive _ babel file
                  (opts_Foo (Some ∅)) ∅ Hopts eq_refl (or_introl Habsent))
           [class_Foo] emptyWorld Hcomponent).
Defined.

(** C2, as stated, fails on a file without components: the
    configuration list is absent, [getPluginOptions] would raise, and
    the transform completes, returning the tree it was given. *)
Lemma missing_configuration_counterexample :
  let file := file_Foo (Some ∅) in
  getPluginOptions file = Throw ConfigurationError ∧
  ∃ w', @transform permissive _ babel file [statement_x] emptyWorld
        = Ok (Program [statement_x], w').
Proof.
  intros file. split; [reflexivity|]. vm_compute. by eexists.
Qed.

(** With [file.opts.extra] itself missing, [getPluginOptions] returns
    [undefined] and the failure is the [TypeError] of calling [map] on
    it. *)
Example missing_extra_run :
  @transform permissive _ babel (file_Foo None) [class_Foo] emptyWorld
  = Throw (TypeError "Cannot read property 'map' of undefined").
Proof. vm_compute. reflexivity. Qed.

(** The transform of [class Foo { render() {} }] with the one target
    [wrap-lib]: the records, one init-call, the wrapper, and the class
    decorated with a call of the wrapper on its identifier. *)
Example transform_class_Foo_run :
  ∃ w',
    @transform permissive _ babel
      (file_Foo (Some {[ "react-transform" := OptArray [wrap_lib] ]}))
      [class_Foo] emptyWorld
    = Ok (Program [
            VariableDeclaration "var" [
              VariableDeclarator (Identifier "_components2") (Some
                (ObjectExpression [
                   Property "init" (Identifier "_$Foo1")
                     (ObjectExpression [
                        Property "init" (Identifier "displayName")
                          (Literal (LString "Foo")) false])
                     false]))];
            VariableDeclaration "var" [
              VariableDeclarator (Identifier "_reactComponentWrapper3") (Some
                (CallExpression (Identifier "_wrap-lib4") [
                   ObjectExpression [
                     Property "init" (Identifier "filename")
                       (Literal (LString "/proj/src/Foo.js")) false;
                     Property "init" (Identifier "components")
                       (Identifier "_components2") false;
                     Property "init" (Identifier "locals") (ArrayExpression []) false;
                     Property "init" (Identifier "imports") (ArrayExpression []) false
                   ]]))];
            wrapper_declaration (Identifier "_wrapComponent0")
              (function_of_ReactClass
                 (CallExpression (Identifier "_reactComponentWrapper3")
                    [Identifier "ReactClass"; Identifier "uniqueId"]));
            ClassDeclaration (Some (Identifier "Foo")) None
              [MethodDefinition "method" (Identifier "render") empty_function
                 false false]
              (Some [Decorator
                       (CallExpression (Identifier "_wrapComponent0")
                          [Literal (LString "_$Foo1")])])
          ],
          w').
Proof. vm_compute. by eexists. Qed.

(** With a second target that imports the file, there is still one
    init-call, and the wrapper composes that one transform only. *)
Example transform_self_import_run :
  ∃ recordsVar initVar decorated w',
    @transform permissive _ babel
      (file_Foo (Some {[ "react-transform" := OptArray [wrap_lib; self_importing] ]}))
      [class_Foo] emptyWorld
    = Ok (Program [
            recordsVar;
            initVar;
            wrapper_declaration (Identifier "_wrapComponent0")
              (function_of_ReactClass
                 (CallExpression (Identifier "_reactComponentWrapper3")
                    [Identifier "ReactClass"; Identifier "uniqueId"]));
            decorated
          ],
          w') ∧
    importedSources w' = ["wrap-lib"].
Proof. vm_compute. by eexists _, _, _, _. Qed.

Lemma no_component_no_change_witness :
  let file := file_Foo None in
  forallb (@no_component _ babel) [statement_x] = true ∧
  ∃ state state' w',
    @Program_enter _ babel emptyWorld = Ok (state, w') ∧
    mapS (@traverse _ babel file) [statement_x] state w'
      = Ok (([statement_x], state'), w') ∧
    foundComponentRecords state' = false ∧
    @Program_exit permissive _ babel (Program [statement_x]) file state' w'
      = Ok ((None, state'), w') ∧
    @transform permissive _ babel file [statement_x] emptyWorld
      = Ok (Program [statement_x], w').
Proof.
  intros file.
  assert (Hfree : forallb (@no_component _ babel) [statement_x] = true)
    by reflexivity.
  split; [exact Hfree|].
  exact (@no_component_no_change permissive _ babel file [statement_x] emptyWorld Hfree).
Defined.

Lemma configuration_not_read_without_components_witness :
  forallb (@no_component _ babel) [statement_x] = true ∧
  ∃ w', ∀ file,
    @transform conservative _ babel file [statement_x] emptyWorld
      = Ok (Program [statement_x], w') ∧
    @transform conservative _ babel file [statement_x] emptyWorld
      ≠ Throw ConfigurationError.
Proof.
  assert (Hfree : forallb (@no_component _ babel) [statement_x] = true)
    by reflexivity.
  split; [exact Hfree|].
  exact (proj2 (proj2 (@configuration_not_read_without_components conservative _ babel
                         [statement_x] emptyWorld Hfree))).
Defined.

End ProgramExitRuns.

(** * Further properties of the plugin *)

(** ** The detector *)

Section DetectorMore.
Context {world : Type} `{Host world}.

Lemma isCreateClass_shape (n : node) :
  isCreateClass (Some n) = true →
  ∃ callee props,
    n = CallExpression callee [ObjectExpression props] ∧
    isCreateClassCallExpression callee = true.
Proof.
  destruct n as [| | |callee args| | | | | | | | | | | | | | | | ];
    try discriminate.
  simpl. destruct (isCreateClassCallExpression callee) eqn:Hm; [|discriminate].
  simpl. destruct args as [|first [|? ?]]; try discriminate.
  destruct first; try discriminate. intros _. by eexists _, _.
Qed.

(** X1. [isCreateClass] accepts exactly the calls whose callee the
    matcher accepts and whose argument list is one object literal:
    nothing that is not a call, no other number of arguments and no
    other kind of argument passes. *)
Theorem isCreateClass_iff (n : option node) :
  isCreateClass n = true ↔
  ∃ callee props,
    n = Some (CallExpression callee [ObjectExpression props]) ∧
    isCreateClassCallExpression callee = true.
Proof.
  split.
  - destruct n as [n|]; [|discriminate]. intros Hn.
    apply isCreateClass_shape in Hn as (callee & props & -> & Hm).
    by exists callee, props.
  - intros (callee & props & -> & Hm). simpl. by rewrite Hm.
Qed.

(** X2. On the nodes the detector accepts, [findDisplayName] never
    raises: for a class it is the name of the class identifier (nothing
    for an anonymous class), for a [createClass] call the value of the
    first property statically named "displayName". *)
Theorem findDisplayName_on_components (n : node) :
  isClass n = true ∨ isCreateClass (Some n) = true →
  findDisplayName n
  = Ok (match node_id n, n with
        | Some id, _ => LString <$> node_name id
        | None, CallExpression _ (ObjectExpression props :: _) =>
            displayName_property_value props
        | None, _ => None
        end).
Proof.
  intros [Hclass|Hcall].
  - destruct n as [| | | | | | | | | |id ? ? ?|id ? ? ?| | | | | | | | ];
      try discriminate; unfold findDisplayName; simpl; by destruct id.
  - apply isCreateClass_shape in Hcall as (callee & props & -> & _).
    unfold findDisplayName. simpl. apply findDisplayName_props_spec.
Qed.

End DetectorMore.

(** [React.createClass({ displayName: 'Bar' })] is named by its
    [displayName] property. *)
Lemma findDisplayName_on_components_witness :
  (isClass createClass_Bar = true ∨
   @isCreateClass _ babel (Some createClass_Bar) = true) ∧
  findDisplayName createClass_Bar = Ok (Some (LString "Bar")).
Proof.
  assert (Hfactory : isClass createClass_Bar = true ∨
                     @isCreateClass _ babel (Some createClass_Bar) = true)
    by (right; reflexivity).
  split; [exact Hfactory|].
  exact (@findDisplayName_on_components _ babel createClass_Bar Hfactory).
Defined.

(** ** The records *)

Section RecordsMore.
Context `{Path} {world : Type} `{Host world}.


Lemma addComponentRecord_Ok (n : node) (file : File) (state : State) (w : world) :
  (∃ found, findDisplayName n = Ok found) →
  ∃ uniqueId definition state' w',
    createComponentRecord n file state w = Ok ((uniqueId, definition), w') ∧
    addComponentRecord n file state w = Ok ((uniqueId, state'), w') ∧
    record_added state state' uniqueId definition.
Proof.
  intros [found Hfound].
  assert (Hcreate : ∃ uid definition w',
             createComponentRecord n file state w = Ok ((uid, definition), w')).
  { unfold createComponentRecord. rewrite bind_eq. unfold lift at 1.
    rewrite Hfound. rewrite bind_eq. unfold call at 1.
    destruct (generateUid _ w) as [uid w1]. unfold ret. by eexists _, _, _. }
  destruct Hcreate as (uid & definition & w' & Hcreate).
  unfold addComponentRecord. rewrite bind_eq, Hcreate. unfold ret.
  eexists uid, definition, _, w'. split; [done|]. split; [reflexivity|].
  by repeat split.
Qed.

(** X4. A batch of records is synthesized once: whenever
    [Program.exit] returns, no record is left in the state, so that
    another [Program.exit] on that state changes nothing, whatever the
    program and the options. *)
Theorem Program_exit_flushes (n : node) (file : File) (state state' : State)
    (w w' : world) (replacement : option node) :
  Program_exit n file state w = Ok ((replacement, state'), w') →
  foundComponentRecords state' = false ∧
  ∀ n' file' w'', Program_exit n' file' state' w'' = Ok ((None, state'), w'').
Proof.
  intros Hexit.
  assert (Hflushed : foundComponentRecords state' = false).
  { unfold Program_exit in Hexit.
    destruct (foundComponentRecords state) eqn:Hfound; cbn [negb] in Hexit.
    - apply bind_Ok in Hexit as (options & w1 & _ & Hexit).
      apply bind_Ok in Hexit as ([[recordsId recordsVar] state1] & w2 & Hdefine & Hexit).
      unfold defineComponentRecords in Hdefine.
      apply bind_Ok in Hdefine as (id & w3 & _ & Hret).
      unfold ret in Hret. injection Hret as _ _ <- _.
      destruct options as [ts|]; [|discriminate].
      apply bind_Ok in Hexit as (calls & w4 & _ & Hret).
      unfold ret in Hret. by injection Hret as _ <- _.
    - unfold ret in Hexit. by injection Hexit as _ <- _. }
  split; [done|]. intros. by apply Program_exit_without_records.
Qed.

End RecordsMore.

Section RecordsMoreRuns.


(** [Program.exit] on a state that holds the record of [Foo], with one
    configured transform. *)
Lemma Program_exit_flushes_witness :
  let file := file_Foo (Some {[ "react-transform" := OptArray [wrap_lib] ]}) in
  let state :=
    {| __reactTransformDepth := Some 0%Z;
       __reactTransformRecords :=
         Some [Property "init" (Identifier "_$Foo1") (ObjectExpression []) false];
       __reactTransformWrapComponentId := Identifier "_wrapComponent0" |} in
  ∃ replacement state' w',
    @Program_exit permissive _ babel (Program [class_Foo]) file state emptyWorld
      = Ok ((replacement, state'), w') ∧
    is_Some replacement ∧
    foundComponentRecords state' = false ∧
    @Program_exit permissive _ babel (Program [class_Foo]) file state' w'
      = Ok ((None, state'), w').
Proof.
  intros file state.
  destruct (@Program_exit permissive _ babel (Program [class_Foo]) file state emptyWorld)
    as [[[replacement state'] w']|e] eqn:Hrun; [|vm_compute in Hrun; discriminate].
  exists replacement, state', w'. split; [reflexivity|].
  split; [vm_compute in Hrun; injection Hrun as <- _ _; by eexists|].
  destruct (@Program_exit_flushes permissive _ babel (Program [class_Foo]) file
              state state' emptyWorld w' replacement Hrun) as [Hflushed Hagain].
  split; [exact Hflushed | apply Hagain].
Defined.

End RecordsMoreRuns.

(** ** The two hooks that wrap a component *)

Section VisitorsMore.
Context {world : Type} `{Host world}.

(** X5. The [Class] hook never raises on a class.  On a class with a
    render method it appends the record of [createComponentRecord] to
    the state and pushes one decorator after those the class has: the
    call of the wrapper identifier on the key of that record.  Any
    other class, the state and the host are left as they are. *)
Theorem Class_decorates_component (n : node) (file : File) (state : State) (w : world) :
  isClass n = true →
  ∃ n' state' w',
    Class n file state w = Ok ((n', state'), w') ∧
    if isComponentishClass n then
      ∃ uniqueId definition,
        createComponentRecord n file state w = Ok ((uniqueId, definition), w') ∧
        record_added state state' uniqueId definition ∧
        n' = push_decorator n (Decorator (wrapper_call state uniqueId)) ∧
        node_decorators n'
          = Some (default [] (node_decorators n) ++
                  [Decorator (wrapper_call state uniqueId)])
    else n' = n ∧ state' = state ∧ w' = w.
Proof.
  intros Hclass. unfold Class.
  destruct (isComponentishClass n); cbn [negb].
  - destruct (addComponentRecord_Ok n file state w (findDisplayName_class n Hclass))
      as (uid & definition & state' & w' & Hcreate & Hadd & Hadded).
    rewrite bind_eq, Hadd. unfold ret.
    eexists _, state', w'. split; [reflexivity|].
    exists uid, definition. split; [done|]. split; [done|]. split; [done|].
    by destruct n.
  - by exists n, state, w.
Qed.

(** X6. The [CallExpression] exit hook never raises.  A call the
    detector accepts is replaced by the call, on that call, of the
    wrapper identifier applied to the key of the record that is
    appended to the state; the replacement is not itself a call the
    detector accepts.  Any other call is not replaced, and the state
    and the host are left as they are. *)
Theorem CallExpression_exit_wraps_factory_call (n : node) (file : File)
    (state : State) (w : world) :
  ∃ replacement state' w',
    CallExpression_exit n file state w = Ok ((replacement, state'), w') ∧
    if isCreateClass (Some n) then
      ∃ uniqueId definition,
        createComponentRecord n file state w = Ok ((uniqueId, definition), w') ∧
        record_added state state' uniqueId definition ∧
        replacement = Some (CallExpression (wrapper_call state uniqueId) [n]) ∧
        isCreateClass replacement = false
    else replacement = None ∧ state' = state ∧ w' = w.
Proof.
  unfold CallExpression_exit.
  destruct (isCreateClass (Some n)) eqn:Hfactory; cbn [negb].
  - destruct (addComponentRecord_Ok n file state w
                (findDisplayName_createClass n Hfactory))
      as (uid & definition & state' & w' & Hcreate & Hadd & Hadded).
    rewrite bind_eq, Hadd. unfold ret.
    eexists _, state', w'. split; [reflexivity|].
    exists uid, definition. split; [done|]. split; [done|]. split; [done|].
    apply isCreateClass_shape in Hfactory as (callee & props & -> & _).
    unfold isCreateClass. by destruct (negb (isCreateClassCallExpression _)).
  - by exists None, state, w.
Qed.

End VisitorsMore.

(** The hook on [class Foo { render() {} }]. *)
Lemma Class_decorates_component_witness :
  let state :=
    {| __reactTransformDepth := None;
       __reactTransformRecords := None;
       __reactTransformWrapComponentId := Identifier "_wrapComponent0" |} in
  let decorator :=
    Decorator (CallExpression (Identifier "_wrapComponent0") [Literal (LString "_$Foo0")]) in
  isClass class_Foo = true ∧
  ∃ state' w',
    @Class _ babel class_Foo (file_Foo None) state emptyWorld
      = Ok ((push_decorator class_Foo decorator, state'), w') ∧
    __reactTransformRecords state'
      = Some [Property "init" (Identifier "_$Foo0")
                (ObjectExpression
                   [Property "init" (Identifier "displayName")
                      (Literal (LString "Foo")) false])
                false].
Proof.
  intros state decorator.
  assert (Hclass : isClass class_Foo = true) by reflexivity.
  split; [exact Hclass|].
  destruct (@Class_decorates_component _ babel class_Foo (file_Foo None) state
              emptyWorld Hclass) as (n' & state' & w' & Hrun & Hcomponent).
  change (@isComponentishClass class_Foo) with true in Hcomponent.
  cbv iota in Hcomponent.
  destruct Hcomponent as (uid & definition & Hcreate & (Hrecords & _) & -> & _).
  vm_compute in Hcreate. injection Hcreate as <- <- <-.
  eexists state', _. split; [exact Hrun | exact Hrecords].
Defined.

(** ** The state along the walk *)

Section WalkMore.
Context {world : Type} `{Host world}.
Variable file : File.

Lemma kept_refl (state : State) : kept state state.
Proof.
  repeat split; [done|]. exists []. unfold records_extended. by rewrite app_nil_r.
Qed.

Lemma kept_trans (s1 s2 s3 : State) : kept s1 s2 → kept s2 s3 → kept s1 s3.
Proof.
  intros ((Hd1 & Hs1) & Hw1 & added1 & Hr1) ((Hd2 & Hs2) & Hw2 & added2 & Hr2).
  split; [split; [congruence | auto]|]. split; [congruence|].
  exists (added1 ++ added2). unfold records_extended in *.
  by rewrite Hr2, Hr1, app_assoc.
Qed.

Lemma depth_of_Function_enter (state : State) :
  depth_of (Function_enter state) = (depth_of state + 1)%Z.
Proof.
  unfold depth_of, Function_enter. simpl.
  destruct (__reactTransformDepth state) as [d|]; simpl; [|done].
  destruct (Z.eqb_spec d 0); lia.
Qed.

(** What is kept between the two [Function] hooks is kept around
    them. *)
Lemma kept_Function (state state' : State) :
  kept (Function_enter state) state' → kept state (Function_exit state').
Proof.
  intros ((Hdepth & Hsome) & Hwrap & added & Hadded).
  rewrite depth_of_Function_enter in Hdepth.
  destruct Hsome as [d Hd]; [by eexists|].
  set (k := depth_of state) in *.
  assert (Hd' : depth_of state' = d) by (unfold depth_of; by rewrite Hd).
  assert (Hexit : depth_of (Function_exit state') = (d - 1)%Z)
    by (unfold depth_of, Function_exit; simpl; by rewrite Hd).
  split; [split|split].
  - lia.
  - intros _. unfold Function_exit. simpl. rewrite Hd. by eexists.
  - exact Hwrap.
  - by exists added.
Qed.

Lemma record_added_kept (state state' : State) (uniqueId : string) (definition : node) :
  record_added state state' uniqueId definition → kept state state'.
Proof.
  intros (Hrecords & Hdepth & Hwrap).
  split; [split|split].
  - unfold depth_of. by rewrite Hdepth.
  - by rewrite Hdepth.
  - exact Hwrap.
  - eexists. unfold records_extended. rewrite Hrecords. reflexivity.
Qed.

Lemma Class_keeps (n : node) (state : State) (w : world) :
  isClass n = true →
  ∃ n' state' w', Class n file state w = Ok ((n', state'), w') ∧ kept state state'.
Proof.
  intros Hclass. unfold Class.
  destruct (isComponentishClass n); cbn [negb].
  - destruct (addComponentRecord_Ok n file state w (findDisplayName_class n Hclass))
      as (uid & definition & state' & w' & _ & Hadd & Hadded).
    rewrite bind_eq, Hadd. unfold ret.
    eexists _, state', w'. split; [reflexivity|]. by eapply record_added_kept.
  - exists n, state, w. split; [done|]. apply kept_refl.
Qed.

Lemma CallExpression_exit_keeps (n : node) (state : State) (w : world) :
  ∃ r state' w',
    CallExpression_exit n file state w = Ok ((r, state'), w') ∧ kept state state'.
Proof.
  unfold CallExpression_exit.
  destruct (isCreateClass (Some n)) eqn:Hfactory; cbn [negb].
  - destruct (addComponentRecord_Ok n file state w
                (findDisplayName_createClass n Hfactory))
      as (uid & definition & state' & w' & _ & Hadd & Hadded).
    rewrite bind_eq, Hadd. unfold ret.
    eexists _, state', w'. split; [reflexivity|]. by eapply record_added_kept.
  - exists None, state, w. split; [done|]. apply kept_refl.
Qed.

Lemma mapS_keeps {A} (f : A → State → M world (A * State)) (l : list A) :
  list_all A (walk_keeps f) l → walk_keeps (mapS f) l.
Proof.
  induction 1 as [|x Hx l _ IH]; intros state w; simpl.
  - exists [], state, w. split; [done|]. apply kept_refl.
  - rewrite bind_eq.
    destruct (Hx state w) as (x' & s1 & w1 & -> & Hk1).
    rewrite bind_eq.
    destruct (IH s1 w1) as (l' & s2 & w2 & -> & Hk2).
    exists (x' :: l'), s2, w2. split; [done|]. by eapply kept_trans.
Qed.

Lemma optS_keeps {A} (f : A → State → M world (A * State)) (o : option A) :
  option_all A (walk_keeps f) o → walk_keeps (optS f) o.
Proof.
  destruct 1 as [x Hx|]; intros state w; simpl.
  - rewrite bind_eq.
    destruct (Hx state w) as (x' & s1 & w1 & -> & Hk1).
    by exists (Some x'), s1, w1.
  - exists None, state, w. split; [done|]. apply kept_refl.
Qed.

Lemma decorators_keep (o : option (list node)) :
  option_all (list node) (list_all node (walk_keeps (traverse file))) o →
  walk_keeps (optS (mapS (traverse file))) o.
Proof.
  intros Hall. apply optS_keeps.
  destruct Hall as [l Hl|]; constructor. by apply mapS_keeps.
Qed.

Ltac walk_cbn :=
  cbn -[Class CallExpression_exit mapS optS Function_enter Function_exit
        isComponentishClass isCreateClass pushed_decorators].

Ltac walk_fold :=
  fold (traverse file) (traverse_property file) (traverse_member file).

Ltac walk_norm := walk_cbn; walk_fold; unfold bind, ret; walk_cbn; walk_fold.

Ltac keeps_with H s w :=
  let E := fresh "E" in
  destruct (H s w) as (? & ? & ? & E & ?); rewrite E; clear E.

(** One step of the walk: a child, or a hook. *)
Ltac keeps_step :=
  match goal with
  | IH : option_all (list node) _ ?o
    |- context [optS (mapS (traverse file)) ?o ?s ?w] =>
      keeps_with (decorators_keep o IH) s w
  | IH : walk_keeps (traverse file) ?n |- context [traverse file ?n ?s ?w] =>
      keeps_with IH s w
  | IH : list_all node _ ?l |- context [mapS (traverse file) ?l ?s ?w] =>
      keeps_with (mapS_keeps (traverse file) l IH) s w
  | IH : list_all property _ ?l
    |- context [mapS (traverse_property file) ?l ?s ?w] =>
      keeps_with (mapS_keeps (traverse_property file) l IH) s w
  | IH : list_all member _ ?l
    |- context [mapS (traverse_member file) ?l ?s ?w] =>
      keeps_with (mapS_keeps (traverse_member file) l IH) s w
  | IH : option_all node _ ?o |- context [optS (traverse file) ?o ?s ?w] =>
      keeps_with (optS_keeps (traverse file) o IH) s w
  | |- context [Class ?n file ?s ?w] =>
      keeps_with (λ s w, Class_keeps n s w eq_refl) s w
  | |- context [CallExpression_exit ?n file ?s ?w] =>
      keeps_with (CallExpression_exit_keeps n) s w
  end.

(** The steps of one constructor, chained. *)
Ltac keeps_chain :=
  repeat match goal with
         | H1 : kept ?a ?b, H2 : kept ?b ?c |- _ =>
             pose proof (kept_trans a b c H1 H2); clear H1 H2
         end;
  first [ apply kept_refl | assumption | by apply kept_Function ].

Ltac keeps_case :=
  intros;
  intros state w;
  walk_norm;
  repeat (keeps_step; walk_norm);
  eexists _, _, _; (split; [reflexivity|]);
  keeps_chain.

(** The walk never raises, and it keeps the state. *)
Lemma traverse_kept (n : node) : walk_keeps (traverse file) n.
Proof.
  apply (node_mut
           (walk_keeps (traverse file))
           (walk_keeps (traverse_property file))
           (walk_keeps (traverse_member file))).
  all: keeps_case.
Qed.

Lemma traverse_body_kept (body : list node) : walk_keeps (mapS (traverse file)) body.
Proof. apply mapS_keeps, list_all_forall. apply traverse_kept. Qed.

(** X7. The walk of the statements of a program never raises, and of
    the state it is started in it keeps: the depth, every function
    entered being left again; the wrapper identifier; and the records,
    after which it only adds. *)
Theorem traverse_keeps_state (body : list node) (state : State) (w : world) :
  ∃ body' state' w' added,
    mapS (traverse file) body state w = Ok ((body', state'), w') ∧
    depth_of state' = depth_of state ∧
    __reactTransformWrapComponentId state' = __reactTransformWrapComponentId state ∧
    default [] (__reactTransformRecords state')
      = default [] (__reactTransformRecords state) ++ added.
Proof.
  destruct (traverse_body_kept body state w)
    as (body' & state' & w' & Hrun & (Hdepth & _) & Hwrap & added & Hadded).
  exists body', state', w', added.
  split; [exact Hrun|]. split; [exact Hdepth|]. split; [exact Hwrap|].
  exact Hadded.
Qed.

End WalkMore.

(** ** The transform of a file, end to end *)

Section TransformMore.
Context `{Path} {world : Type} `{Host world}.








Lemma getPluginOptions_None (file : File) :
  getPluginOptions file = Ok None ↔
  opts file = None ∨ ∃ o, opts file = Some o ∧ extra o = None.
Proof.
  unfold getPluginOptions. split.
  - destruct (opts file) as [o|]; [|by left].
    destruct (extra o) as [ex|] eqn:Hextra; [|right; by exists o].
    by destruct (ex !! "react-transform") as [[l|v]|].
  - intros [->|(o & -> & ->)]; reflexivity.
Qed.


(** [Program.exit] on a state that holds records, by what
    [getPluginOptions] has answered. *)
Lemma Program_exit_with_records (n : node) (file : File) (state : State) (w : world) :
  foundComponentRecords state = true →
  ∃ recordsId recordsVar state' w1,
    defineComponentRecords state w = Ok ((recordsId, recordsVar, state'), w1) ∧
    Program_exit n file state w =
      match getPluginOptions file with
      | Throw e => Throw e
      | Ok None => Throw map_of_undefined
      | Ok (Some ts) =>
          match mapM (defineInitTransformCall file recordsId) ts w1 with
          | Throw e => Throw e
          | Ok (results, w') =>
              Ok ((Some (Program
                           ([recordsVar] ++ map snd (filter_Boolean results) ++
                            [defineWrapComponent
                               (__reactTransformWrapComponentId state)
                               (map fst (filter_Boolean results))] ++
                            program_body n)),
                   state'), w')
          end
      end.
Proof.
  intros Hfound. unfold Program_exit. rewrite Hfound. cbn [negb].
  unfold defineComponentRecords, generateUidIdentifier.
  rewrite !bind_eq. unfold call at 1. unfold ret at 1 2.
  destruct (generateUid "components" w) as [uid w1] eqn:Euid.
  eexists _, _, _, w1. split; [reflexivity|].
  unfold lift at 1.
  destruct (getPluginOptions file) as [[ts|]|e]; [|rewrite !bind_eq..|done].
  - rewrite !bind_eq. unfold call at 1. unfold ret at 1 2. rewrite Euid.
    cbv beta iota. rewrite bind_eq.
    by destruct (mapM _ ts _) as [[results w']|e].
  - unfold call at 1. unfold ret at 1 2. by rewrite Euid.
Qed.




(** X10. When [file.opts] or [file.opts.extra] is missing, the
    transform of every file that holds a component fails with the
    [TypeError] of [undefined.map], not with [ConfigurationError]. *)
Theorem missing_extra_is_a_type_error (file : File) (body : list node) (w : world) :
  forallb no_component body = false →
  opts file = None ∨ (∃ o, opts file = Some o ∧ extra o = None) →
  transform file body w = Throw map_of_undefined.
Proof.
  intros Hcomponent Hmissing. apply getPluginOptions_None in Hmissing.
  destruct (walk_of_file file body w)
    as (state0 & w0 & body' & state1 & w1 & Henter & Hwalk & Hfound).
  destruct (Program_exit_with_records (Program body') file state1 w1
              (Hfound Hcomponent))
    as (recordsId & recordsVar & state' & w2 & _ & Hexit).
  rewrite Hmissing in Hexit.
  unfold transform. by rewrite bind_eq, Henter, bind_eq, Hwalk, bind_eq, Hexit.
Qed.




(** X12. When the plugin is not installed under [node_modules], no
    configured record is ever skipped as importing the file being
    processed: an import that resolves is not relative, and the parsed
    directory of such a path is not ["."].  Whenever
    [defineInitTransformCall] returns, it returns the init-call of the
    record. *)
Theorem no_record_skipped_outside_node_modules (file : File) (o : FileOpts)
    (recordsId : node) (t : TransformTargetRecord) (w w' : world)
    (r : option (node * node)) :
  path_basename parentDir ≠ "node_modules" →
  dot_directory_is_relative →
  opts file = Some o →
  defineInitTransformCall file recordsId t w = Ok (r, w') →
  ¬ imports_file (filename o) t ∧
  ∃ call, r = Some call ∧ is_init_call (filename o) recordsId t call.
Proof.
  intros Hout Hparse Hopts Hrun.
  destruct (defineInitTransformCall_Ok file o recordsId t w w' r Hopts Hrun)
    as (Hskip & _ & Hcall).
  assert (Hnever : ¬ imports_file (filename o) t).
  { intros (imp & resolved & _ & Hresolved & Hdir & _).
    apply Hparse in Hdir.
    unfold resolvePath in Hresolved.
    apply String.eqb_neq in Hout. rewrite Hout in Hresolved.
    unfold resolvePathConservatively in Hresolved.
    destruct (starts_with_dot imp) eqn:Himp; [discriminate|].
    injection Hresolved as <-. congruence. }
  split; [exact Hnever|].
  destruct r as [call|]; [|by destruct Hnever; apply Hskip].
  exists call. split; [done|]. by apply Hcall.
Qed.

End TransformMore.

(** *** The POSIX library and the directory ["."] *)

Lemma substring_head (n : nat) (s : string) (c : ascii) (r : string) :
  String.substring 0 n s = String c r → ∃ s', s = String c s'.
Proof.
  destruct n as [|n], s as [|a s]; simpl; try discriminate.
  intros [= -> _]. by eexists.
Qed.

Lemma split_last_segment_head (x : string) (c : ascii) (d b : string) :
  Posix.split_last_segment x = (String c d, b) → ∃ x', x = String c x'.
Proof.
  destruct x as [|a x]; simpl; [discriminate|].
  destruct (Posix.split_last_segment x) as [d0 b0].
  destruct (Posix.nonempty d0); [intros [= -> _ _]; by eexists|].
  destruct (Posix.is_slash a); [intros [= -> _ _]; by eexists | discriminate].
Qed.

Lemma strip_trailing_slashes_head (s : string) (c : ascii) (r : string) :
  Posix.strip_trailing_slashes s = String c r → ∃ s', s = String c s'.
Proof.
  destruct s as [|a s]; simpl; [discriminate|].
  destruct (Posix.strip_trailing_slashes s).
  - destruct (Posix.is_slash a); [discriminate|]. intros [= -> _]. by eexists.
  - intros [= -> _]. by eexists.
Qed.

(** [path-parse] gives the directory ["."] only to a path that starts
    with a dot. *)
Lemma posix_dot_directory_is_relative (cwd plugin_dir : string) :
  @dot_directory_is_relative (posix cwd plugin_dir).
Proof.
  intros s. cbn [parsePath posix]. unfold Posix.parse, Posix.splitPath.
  destruct (Posix.isAbsolute s) eqn:Habsolute.
  - destruct (Posix.split_last_segment _) as [d b]. simpl. discriminate.
  - destruct (Posix.split_last_segment _) as [d b] eqn:Hsplit. simpl.
    unfold Posix.drop_end. intros Hdir.
    apply substring_head in Hdir as [d' ->].
    apply split_last_segment_head in Hsplit as [x' Hstrip].
    apply strip_trailing_slashes_head in Hstrip as [s' ->].
    reflexivity.
Qed.

(** ** The further properties on the example project *)

Section TransformMoreRuns.



(** A file handed over without [extra]. *)
Lemma missing_extra_is_a_type_error_witness :
  (forallb (@no_component _ babel) [class_Foo] = false ∧
   (opts (file_Foo None) = None ∨
    ∃ o, opts (file_Foo None) = Some o ∧ extra o = None)) ∧
  @transform permissive _ babel (file_Foo None) [class_Foo] emptyWorld
    = Throw map_of_undefined.
Proof.
  assert (Hcomponent : forallb (@no_component _ babel) [class_Foo] = false)
    by reflexivity.
  assert (Hmissing : opts (file_Foo None) = None ∨
                     ∃ o, opts (file_Foo None) = Some o ∧ extra o = None)
    by (right; by exists (opts_Foo None)).
  split; [exact (conj Hcomponent Hmissing)|].
  exact (@missing_extra_is_a_type_error permissive _ babel (file_Foo None)
           [class_Foo] emptyWorld Hcomponent Hmissing).
Defined.


(** The record whose import names the file by its absolute path, with
    the plugin outside [node_modules]. *)
Lemma no_record_skipped_outside_node_modules_witness :
  let o := opts_Foo None in
  let recordsId := Identifier "_components" in
  (@path_basename conservative (@parentDir conservative) ≠ "node_modules" ∧
   @dot_directory_is_relative conservative ∧
   opts (file_Foo None) = Some o) ∧
  ∃ call w',
    @defineInitTransformCall conservative _ babel (file_Foo None) recordsId
      self_importing_absolute emptyWorld = Ok (Some call, w') ∧
    @is_init_call (filename o) recordsId self_importing_absolute call.
Proof.
  intros o recordsId.
  assert (Hout : @path_basename conservative (@parentDir conservative) ≠ "node_modules")
    by (vm_compute; discriminate).
  assert (Hparse : @dot_directory_is_relative conservative)
    by apply posix_dot_directory_is_relative.
  assert (Hopts : opts (file_Foo None) = Some o) by reflexivity.
  split; [exact (conj Hout (conj Hparse Hopts))|].
  destruct (@defineInitTransformCall conservative _ babel (file_Foo None) recordsId
              self_importing_absolute emptyWorld) as [[r w']|e] eqn:Hrun;
    [|vm_compute in Hrun; discriminate].
  destruct (@no_record_skipped_outside_node_modules conservative _ babel
              (file_Foo None) o recordsId self_importing_absolute emptyWorld w' r
              Hout Hparse Hopts Hrun) as (_ & call & -> & Hcall).
  by exists call, w'.
Defined.

End TransformMoreRuns.

(** ** Components defined inside functions *)

Section WalkFlags.
Context {world : Type} `{Host world}.
Variable file : File.

Lemma flags_refl (state : State) : flags state state.
Proof.
  split; [done|]. exists []. split; [|constructor].
  unfold records_extended. by rewrite app_nil_r.
Qed.

Lemma flags_trans (s1 s2 s3 : State) : flags s1 s2 → flags s2 s3 → flags s1 s3.
Proof.
  intros ((Hd1 & Hs1) & added1 & Hr1 & Hf1) ((Hd2 & Hs2) & added2 & Hr2 & Hf2).
  split; [split; [congruence | auto]|].
  exists (added1 ++ added2). split; [|by apply Forall_app].
  unfold records_extended in *. by rewrite Hr2, Hr1, app_assoc.
Qed.

Lemma flags_Function (state state' : State) :
  flags (Function_enter state) state' → flags state (Function_exit state').
Proof.
  intros ((Hdepth & Hsome) & added & Hadded & Hflagged).
  rewrite depth_of_Function_enter in Hdepth.
  destruct Hsome as [d Hd]; [by eexists|].
  set (k := depth_of state) in *.
  assert (Hd' : depth_of state' = d) by (unfold depth_of; by rewrite Hd).
  assert (Hexit : depth_of (Function_exit state') = (d - 1)%Z)
    by (unfold depth_of, Function_exit; simpl; by rewrite Hd).
  split; [split|].
  - lia.
  - intros _. unfold Function_exit. simpl. rewrite Hd. by eexists.
  - by exists added.
Qed.

(** Inside a function the record is flagged. *)
Lemma addComponentRecord_flags (n : node) (state : State) (w : world) :
  (∃ found, findDisplayName n = Ok found) →
  (0 < depth_of state)%Z →
  ∃ uniqueId state' w',
    addComponentRecord n file state w = Ok ((uniqueId, state'), w') ∧
    flags state state'.
Proof.
  intros [found Hfound] Hdepth.
  unfold addComponentRecord, createComponentRecord.
  rewrite !bind_eq. unfold lift at 1. rewrite Hfound.
  rewrite bind_eq. unfold call at 1.
  destruct (generateUid _ w) as [uid w1]. unfold ret.
  eexists _, _, _. split; [reflexivity|].
  split; [by split|].
  eexists. split; [reflexivity|].
  constructor; [|constructor].
  eexists _, _. split; [reflexivity|].
  apply elem_of_app. right.
  unfold depth_of in Hdepth.
  destruct (__reactTransformDepth state) as [d|]; simpl in Hdepth; [|lia].
  destruct (Z.ltb_spec 0 d); [by left | lia].
Qed.

Lemma Class_flags (n : node) (state : State) (w : world) :
  isClass n = true →
  (0 < depth_of state)%Z →
  ∃ n' state' w', Class n file state w = Ok ((n', state'), w') ∧ flags state state'.
Proof.
  intros Hclass Hdepth. unfold Class.
  destruct (isComponentishClass n); cbn [negb].
  - destruct (addComponentRecord_flags n state w (findDisplayName_class n Hclass) Hdepth)
      as (uid & state' & w' & Hadd & Hflags).
    rewrite bind_eq, Hadd. unfold ret. by eexists _, state', w'.
  - exists n, state, w. split; [done|]. apply flags_refl.
Qed.

Lemma CallExpression_exit_flags (n : node) (state : State) (w : world) :
  (0 < depth_of state)%Z →
  ∃ r state' w',
    CallExpression_exit n file state w = Ok ((r, state'), w') ∧ flags state state'.
Proof.
  intros Hdepth. unfold CallExpression_exit.
  destruct (isCreateClass (Some n)) eqn:Hfactory; cbn [negb].
  - destruct (addComponentRecord_flags n state w
                (findDisplayName_createClass n Hfactory) Hdepth)
      as (uid & state' & w' & Hadd & Hflags).
    rewrite bind_eq, Hadd. unfold ret. by eexists _, state', w'.
  - exists None, state, w. split; [done|]. apply flags_refl.
Qed.

Lemma flags_depth (state state' : State) :
  flags state state' → (0 < depth_of state)%Z → (0 < depth_of state')%Z.
Proof. intros ((Hdepth & _) & _). lia. Qed.

Lemma mapS_flags {A} (f : A → State → M world (A * State)) (l : list A) :
  list_all A (walk_flags f) l → walk_flags (mapS f) l.
Proof.
  induction 1 as [|x Hx l _ IH]; intros state w Hdepth; simpl.
  - exists [], state, w. split; [done|]. apply flags_refl.
  - rewrite bind_eq.
    destruct (Hx state w Hdepth) as (x' & s1 & w1 & -> & Hk1).
    rewrite bind_eq.
    destruct (IH s1 w1 (flags_depth _ _ Hk1 Hdepth)) as (l' & s2 & w2 & -> & Hk2).
    exists (x' :: l'), s2, w2. split; [done|]. by eapply flags_trans.
Qed.

Lemma optS_flags {A} (f : A → State → M world (A * State)) (o : option A) :
  option_all A (walk_flags f) o → walk_flags (optS f) o.
Proof.
  destruct 1 as [x Hx|]; intros state w Hdepth; simpl.
  - rewrite bind_eq.
    destruct (Hx state w Hdepth) as (x' & s1 & w1 & -> & Hk1).
    by exists (Some x'), s1, w1.
  - exists None, state, w. split; [done|]. apply flags_refl.
Qed.

Lemma decorators_flag (o : option (list node)) :
  option_all (list node) (list_all node (walk_flags (traverse file))) o →
  walk_flags (optS (mapS (traverse file))) o.
Proof.
  intros Hall. apply optS_flags.
  destruct Hall as [l Hl|]; constructor. by apply mapS_flags.
Qed.

Ltac walk_cbn :=
  cbn -[Class CallExpression_exit mapS optS Function_enter Function_exit
        isComponentishClass isCreateClass pushed_decorators].

Ltac walk_fold :=
  fold (traverse file) (traverse_property file) (traverse_member file).

Ltac walk_norm := walk_cbn; walk_fold; unfold bind, ret; walk_cbn; walk_fold.

(** The depth at a step of the walk, from the steps before it. *)
Ltac depth_here :=
  repeat match goal with
         | Hk : flags ?a ?b, Hd : (0 < depth_of ?a)%Z |- _ =>
             lazymatch goal with
             | _ : (0 < depth_of b)%Z |- _ => fail
             | _ => pose proof (flags_depth a b Hk Hd)
             end
         end;
  first [ assumption | rewrite depth_of_Function_enter; lia ].

Ltac flags_with H s w :=
  let E := fresh "E" in
  let Hd := fresh "Hd" in
  assert (Hd : (0 < depth_of s)%Z) by depth_here;
  destruct (H s w Hd) as (? & ? & ? & E & ?); rewrite E; clear E.

(** One step of the walk: a child, or a hook. *)
Ltac flags_step :=
  match goal with
  | IH : option_all (list node) _ ?o
    |- context [optS (mapS (traverse file)) ?o ?s ?w] =>
      flags_with (decorators_flag o IH) s w
  | IH : walk_flags (traverse file) ?n |- context [traverse file ?n ?s ?w] =>
      flags_with IH s w
  | IH : list_all node _ ?l |- context [mapS (traverse file) ?l ?s ?w] =>
      flags_with (mapS_flags (traverse file) l IH) s w
  | IH : list_all property _ ?l
    |- context [mapS (traverse_property file) ?l ?s ?w] =>
      flags_with (mapS_flags (traverse_property file) l IH) s w
  | IH : list_all member _ ?l
    |- context [mapS (traverse_member file) ?l ?s ?w] =>
      flags_with (mapS_flags (traverse_member file) l IH) s w
  | IH : option_all node _ ?o |- context [optS (traverse file) ?o ?s ?w] =>
      flags_with (optS_flags (traverse file) o IH) s w
  | |- context [Class ?n file ?s ?w] =>
      flags_with (λ s w, Class_flags n s w eq_refl) s w
  | |- context [CallExpression_exit ?n file ?s ?w] =>
      flags_with (CallExpression_exit_flags n) s w
  end.

Ltac flags_chain :=
  repeat match goal with
         | H1 : flags ?a ?b, H2 : flags ?b ?c |- _ =>
             pose proof (flags_trans a b c H1 H2); clear H1 H2
         end;
  first [ apply flags_refl | assumption | by apply flags_Function ].

Ltac flags_case :=
  intros;
  intros state w Hdepth;
  walk_norm;
  repeat (flags_step; walk_norm);
  eexists _, _, _; (split; [reflexivity|]);
  flags_chain.

Lemma traverse_flags (n : node) : walk_flags (traverse file) n.
Proof.
  apply (node_mut
           (walk_flags (traverse file))
           (walk_flags (traverse_property file))
           (walk_flags (traverse_member file))).
  all: flags_case.
Qed.

(** One step of the walk of a closed tree. *)
Ltac flags_step_closed :=
  match goal with
  | |- context [optS (traverse file) ?o ?s ?w] =>
      flags_with (optS_flags (traverse file) o
                    (option_all_forall _ _ traverse_flags o)) s w
  | |- context [mapS (traverse file) ?l ?s ?w] =>
      flags_with (mapS_flags (traverse file) l
                    (list_all_forall _ _ traverse_flags l)) s w
  | |- context [traverse file ?n ?s ?w] =>
      flags_with (traverse_flags n) s w
  end.

(** X13. Every component met inside a function is recorded as such:
    the walk of a tree that is started inside a function, and the walk
    of a function itself, add only records that carry
    [isInFunction: true]. *)
Theorem components_in_functions_are_flagged (n : node) (state : State) (w : world) :
  (0 < depth_of state)%Z ∨ (isFunction n = true ∧ (0 ≤ depth_of state)%Z) →
  ∃ n' state' w' added,
    traverse file n state w = Ok ((n', state'), w') ∧
    records_extended state state' added ∧
    Forall flagged added.
Proof.
  intros Hinside.
  assert (Hwalk : ∃ n' state' w',
            traverse file n state w = Ok ((n', state'), w') ∧ flags state state').
  { destruct Hinside as [Hdepth|[Hfunction Hdepth]]; [by apply traverse_flags|].
    destruct n; try discriminate;
      walk_norm;
      repeat (flags_step_closed; walk_norm);
      eexists _, _, _; (split; [reflexivity|]);
      flags_chain. }
  destruct Hwalk as (n' & state' & w' & Hrun & _ & added & Hadded & Hflagged).
  by exists n', state', w', added.
Qed.

End WalkFlags.

(** ** Components defined outside functions *)

Section WalkUnflagged.
Context {world : Type} `{Host world}.
Variable file : File.

Lemma unflags_refl (state : State) : unflags state state.
Proof.
  split; [done|]. exists []. split; [|constructor].
  unfold records_extended. by rewrite app_nil_r.
Qed.

Lemma unflags_trans (s1 s2 s3 : State) :
  unflags s1 s2 → unflags s2 s3 → unflags s1 s3.
Proof.
  intros ((Hd1 & Hs1) & added1 & Hr1 & Hf1) ((Hd2 & Hs2) & added2 & Hr2 & Hf2).
  split; [split; [congruence | auto]|].
  exists (added1 ++ added2). split; [|by apply Forall_app].
  unfold records_extended in *. by rewrite Hr2, Hr1, app_assoc.
Qed.

Lemma unflags_depth (state state' : State) :
  unflags state state' → (depth_of state ≤ 0)%Z → (depth_of state' ≤ 0)%Z.
Proof. intros ((Hdepth & _) & _). lia. Qed.

(** Outside every function the record is not flagged. *)
Lemma addComponentRecord_unflags (n : node) (state : State) (w : world) :
  (∃ found, findDisplayName n = Ok found) →
  (depth_of state ≤ 0)%Z →
  ∃ uniqueId state' w',
    addComponentRecord n file state w = Ok ((uniqueId, state'), w') ∧
    unflags state state'.
Proof.
  intros [found Hfound] Hdepth.
  unfold addComponentRecord, createComponentRecord.
  rewrite !bind_eq. unfold lift at 1. rewrite Hfound.
  rewrite bind_eq. unfold call at 1.
  destruct (generateUid _ w) as [uid w1]. unfold ret.
  eexists _, _, _. split; [reflexivity|].
  split; [by split|].
  eexists. split; [reflexivity|].
  constructor; [|constructor].
  eexists _, _. split; [reflexivity|].
  intros Hin. apply elem_of_app in Hin as [Hin|Hin].
  - destruct (or_undefined found) as [[s|k|b|]|]; try by apply elem_of_nil in Hin.
    apply list_elem_of_singleton in Hin. discriminate.
  - unfold depth_of in Hdepth.
    destruct (__reactTransformDepth state) as [d|]; simpl in Hdepth;
      [|by apply elem_of_nil in Hin].
    destruct (Z.ltb_spec 0 d); [lia | by apply elem_of_nil in Hin].
Qed.

Lemma Class_unflags (n : node) (state : State) (w : world) :
  isClass n = true →
  (depth_of state ≤ 0)%Z →
  ∃ n' state' w', Class n file state w = Ok ((n', state'), w') ∧ unflags state state'.
Proof.
  intros Hclass Hdepth. unfold Class.
  destruct (isComponentishClass n); cbn [negb].
  - destruct (addComponentRecord_unflags n state w (findDisplayName_class n Hclass)
                Hdepth) as (uid & state' & w' & Hadd & Hflags).
    rewrite bind_eq, Hadd. unfold ret. by eexists _, state', w'.
  - exists n, state, w. split; [done|]. apply unflags_refl.
Qed.

Lemma CallExpression_exit_unflags (n : node) (state : State) (w : world) :
  (depth_of state ≤ 0)%Z →
  ∃ r state' w',
    CallExpression_exit n file state w = Ok ((r, state'), w') ∧ unflags state state'.
Proof.
  intros Hdepth. unfold CallExpression_exit.
  destruct (isCreateClass (Some n)) eqn:Hfactory; cbn [negb].
  - destruct (addComponentRecord_unflags n state w
                (findDisplayName_createClass n Hfactory) Hdepth)
      as (uid & state' & w' & Hadd & Hflags).
    rewrite bind_eq, Hadd. unfold ret. by eexists _, state', w'.
  - exists None, state, w. split; [done|]. apply unflags_refl.
Qed.

Lemma mapS_unflags {A} (f : A → State → M world (A * State))
    (outside : A → bool) (l : list A) :
  list_all A (λ x, outside x = true → walk_unflags f x) l →
  forallb outside l = true →
  walk_unflags (mapS f) l.
Proof.
  induction 1 as [|x Hx l _ IH]; intros Hout state w Hdepth; simpl.
  - exists [], state, w. split; [done|]. apply unflags_refl.
  - simpl in Hout. apply andb_true_iff in Hout as [Hox Hol].
    rewrite bind_eq.
    destruct (Hx Hox state w Hdepth) as (x' & s1 & w1 & -> & Hk1).
    rewrite bind_eq.
    destruct (IH Hol s1 w1 (unflags_depth _ _ Hk1 Hdepth))
      as (l' & s2 & w2 & -> & Hk2).
    exists (x' :: l'), s2, w2. split; [done|]. by eapply unflags_trans.
Qed.

Lemma optS_unflags {A} (f : A → State → M world (A * State))
    (outside : A → bool) (o : option A) :
  option_all A (λ x, outside x = true → walk_unflags f x) o →
  from_option outside true o = true →
  walk_unflags (optS f) o.
Proof.
  destruct 1 as [x Hx|]; intros Hout state w Hdepth; simpl.
  - rewrite bind_eq.
    destruct (Hx Hout state w Hdepth) as (x' & s1 & w1 & -> & Hk1).
    by exists (Some x'), s1, w1.
  - exists None, state, w. split; [done|]. apply unflags_refl.
Qed.

Lemma decorators_unflag (o : option (list node)) :
  option_all (list node)
    (list_all node
       (λ n, components_outside_functions n = true →
             walk_unflags (traverse file) n)) o →
  from_option (forallb components_outside_functions) true o = true →
  walk_unflags (optS (mapS (traverse file))) o.
Proof.
  intros Hall. apply (optS_unflags _ (forallb components_outside_functions)).
  destruct Hall as [l Hl|]; constructor.
  by apply mapS_unflags.
Qed.

(** A function that holds no component is walked without a record
    being added. *)
Lemma function_unflags (n : node) :
  no_component n = true → walk_unflags (traverse file) n.
Proof.
  intros Hfree state w _.
  destruct (traverse_no_component file n Hfree state w) as (s1 & Hrun & Hrecords & _).
  destruct (traverse_kept file n state w) as (n' & s2 & w2 & Hrun' & Hbalanced & _).
  rewrite Hrun in Hrun'. injection Hrun' as <- <- <-.
  exists n, s1, w. split; [done|]. split; [done|].
  exists []. split; [|constructor].
  unfold records_extended. by rewrite Hrecords, app_nil_r.
Qed.

Ltac walk_cbn :=
  cbn -[Class CallExpression_exit mapS optS Function_enter Function_exit
        isComponentishClass isCreateClass pushed_decorators].

Ltac walk_fold :=
  fold (traverse file) (traverse_property file) (traverse_member file).

Ltac walk_norm := walk_cbn; walk_fold; unfold bind, ret; walk_cbn; walk_fold.

Ltac depth_here :=
  repeat match goal with
         | Hk : unflags ?a ?b, Hd : (depth_of ?a ≤ 0)%Z |- _ =>
             lazymatch goal with
             | _ : (depth_of b ≤ 0)%Z |- _ => fail
             | _ => pose proof (unflags_depth a b Hk Hd)
             end
         end;
  assumption.

Ltac unflags_with H s w :=
  let E := fresh "E" in
  let Hd := fresh "Hd" in
  assert (Hd : (depth_of s ≤ 0)%Z) by depth_here;
  destruct (H s w Hd) as (? & ? & ? & E & ?); rewrite E; clear E.

Ltac unflags_step :=
  match goal with
  | IH : option_all (list node) _ ?o
    |- context [optS (mapS (traverse file)) ?o ?s ?w] =>
      unflags_with (decorators_unflag o IH ltac:(assumption)) s w
  | IH : _ → walk_unflags (traverse file) ?n
    |- context [traverse file ?n ?s ?w] =>
      unflags_with (IH ltac:(assumption)) s w
  | IH : list_all node _ ?l |- context [mapS (traverse file) ?l ?s ?w] =>
      unflags_with
        (mapS_unflags (traverse file) components_outside_functions l IH
           ltac:(assumption)) s w
  | IH : list_all property _ ?l
    |- context [mapS (traverse_property file) ?l ?s ?w] =>
      unflags_with
        (mapS_unflags (traverse_property file)
           components_outside_functions_property l IH ltac:(assumption)) s w
  | IH : list_all member _ ?l
    |- context [mapS (traverse_member file) ?l ?s ?w] =>
      unflags_with
        (mapS_unflags (traverse_member file)
           components_outside_functions_member l IH ltac:(assumption)) s w
  | IH : option_all node _ ?o |- context [optS (traverse file) ?o ?s ?w] =>
      unflags_with
        (optS_unflags (traverse file) components_outside_functions o IH
           ltac:(assumption)) s w
  | |- context [Class ?n file ?s ?w] =>
      unflags_with (λ s w, Class_unflags n s w eq_refl) s w
  | |- context [CallExpression_exit ?n file ?s ?w] =>
      unflags_with (CallExpression_exit_unflags n) s w
  end.

Ltac split_outside H :=
  repeat match type of H with
         | _ && _ = true =>
             let H' := fresh "Ho" in
             apply andb_true_iff in H as [H H']; try split_outside H'
         end.

Ltac unflags_chain :=
  repeat match goal with
         | H1 : unflags ?a ?b, H2 : unflags ?b ?c |- _ =>
             pose proof (unflags_trans a b c H1 H2); clear H1 H2
         end;
  first [ apply unflags_refl | assumption ].

Ltac unflags_case :=
  intros;
  match goal with
  | Hout : _ = true |- walk_unflags _ _ =>
      cbn -[no_component] in Hout;
      fold (@components_outside_functions world _)
           (@components_outside_functions_property world _)
           (@components_outside_functions_member world _) in Hout;
      split_outside Hout
  end;
  intros state w Hdepth;
  walk_norm;
  repeat (unflags_step; walk_norm);
  eexists _, _, _; (split; [reflexivity|]);
  unflags_chain.

Lemma traverse_unflags (n : node) :
  components_outside_functions n = true → walk_unflags (traverse file) n.
Proof.
  apply (node_mut
           (λ n, components_outside_functions n = true →
                 walk_unflags (traverse file) n)
           (λ p, components_outside_functions_property p = true →
                 walk_unflags (traverse_property file) p)
           (λ m, components_outside_functions_member m = true →
                 walk_unflags (traverse_member file) m)).
  all: try (intros; by apply function_unflags).
  all: unflags_case.
Qed.

(** X14. In a program whose functions hold no component, as when the
    only functions are the methods of the components, the walk started
    outside every function flags none of the records it adds: no
    component is recorded with [isInFunction]. *)
Theorem components_outside_functions_are_not_flagged (body : list node)
    (state : State) (w : world) :
  forallb components_outside_functions body = true →
  (depth_of state ≤ 0)%Z →
  ∃ body' state' w' added,
    mapS (traverse file) body state w = Ok ((body', state'), w') ∧
    records_extended state state' added ∧
    Forall unflagged added.
Proof.
  intros Houtside Hdepth.
  destruct (mapS_unflags (traverse file) components_outside_functions body
              (list_all_forall _ _ traverse_unflags body) Houtside state w Hdepth)
    as (body' & state' & w' & Hrun & _ & added & Hadded & Hunflagged).
  by exists body', state', w', added.
Qed.

End WalkUnflagged.

Section WalkFlagsRuns.

(** [function make() { class Foo { render() {} } }], walked from the
    state [Program.enter] leaves. *)
Lemma components_in_functions_are_flagged_witness :
  let state :=
    {| __reactTransformDepth := None;
       __reactTransformRecords := None;
       __reactTransformWrapComponentId := Identifier "_wrapComponent0" |} in
  ((0 < depth_of state)%Z ∨
   (isFunction function_make_Foo = true ∧ (0 ≤ depth_of state)%Z)) ∧
  ∃ n' state' w',
    @traverse _ babel (file_Foo None) function_make_Foo state emptyWorld
      = Ok ((n', state'), w') ∧
    __reactTransformRecords state'
      = Some [Property "init" (Identifier "_$Foo0")
                (ObjectExpression
                   [Property "init" (Identifier "displayName")
                      (Literal (LString "Foo")) false;
                    in_function_flag])
                false].
Proof.
  intros state.
  assert (Hinside : (0 < depth_of state)%Z ∨
                    (isFunction function_make_Foo = true ∧ (0 ≤ depth_of state)%Z))
    by (right; split; [reflexivity | discriminate]).
  split; [exact Hinside|].
  destruct (@components_in_functions_are_flagged _ babel (file_Foo None)
              function_make_Foo state emptyWorld Hinside)
    as (n' & state' & w' & added & Hrun & _ & _).
  exists n', state', w'. split; [exact Hrun|].
  vm_compute in Hrun. by injection Hrun as _ <- _.
Defined.

(** [x; class Foo { render() {} }], walked from the state
    [Program.enter] leaves. *)
Lemma components_outside_functions_are_not_flagged_witness :
  let state :=
    {| __reactTransformDepth := None;
       __reactTransformRecords := None;
       __reactTransformWrapComponentId := Identifier "_wrapComponent0" |} in
  (forallb (@components_outside_functions _ babel) [statement_x; class_Foo] = true ∧
   (depth_of state ≤ 0)%Z) ∧
  ∃ body' state' w',
    mapS (@traverse _ babel (file_Foo None)) [statement_x; class_Foo] state emptyWorld
      = Ok ((body', state'), w') ∧
    __reactTransformRecords state'
      = Some [Property "init" (Identifier "_$Foo0")
                (ObjectExpression
                   [Property "init" (Identifier "displayName")
                      (Literal (LString "Foo")) false])
                false].
Proof.
  intros state.
  assert (Houtside : forallb (@components_outside_functions _ babel)
                       [statement_x; class_Foo] = true) by reflexivity.
  assert (Hdepth : (depth_of state ≤ 0)%Z) by discriminate.
  split; [exact (conj Houtside Hdepth)|].
  destruct (@components_outside_functions_are_not_flagged _ babel (file_Foo None)
              [statement_x; class_Foo] state emptyWorld Houtside Hdepth)
    as (body' & state' & w' & added & Hrun & _ & _).
  exists body', state', w'. split; [exact Hrun|].
  vm_compute in Hrun. by injection Hrun as _ <- _.
Defined.

End WalkFlagsRuns.

(** ** The walk only adds wrappers *)

Section WalkWraps.
Context {world : Type} `{Host world}.
Variable file : File.

Lemma addComponentRecord_wrapper (n : node) (state : State) (w : world) :
  (∃ found, findDisplayName n = Ok found) →
  ∃ uniqueId state' w',
    addComponentRecord n file state w = Ok ((uniqueId, state'), w') ∧
    __reactTransformWrapComponentId state' = __reactTransformWrapComponentId state.
Proof.
  intros Hfound.
  destruct (addComponentRecord_Ok n file state w Hfound)
    as (uid & definition & state' & w' & _ & Hadd & _ & _ & Hwrap).
  by exists uid, state', w'.
Qed.

Lemma pushed_decorators_one (n d : node) :
  isClass n = true → pushed_decorators n (push_decorator n d) = [d].
Proof.
  unfold pushed_decorators.
  destruct n; try discriminate; intros _; simpl; by rewrite drop_app_length.
Qed.

Lemma Class_wraps (n : node) (W : node) (state : State) (w : world) :
  isClass n = true →
  __reactTransformWrapComponentId state = W →
  ∃ entered state' w',
    Class n file state w = Ok ((entered, state'), w') ∧
    __reactTransformWrapComponentId state' = W ∧
    (pushed_decorators n entered = [] ∨
     ∃ d, is_wrapper W d ∧ pushed_decorators n entered = [d]).
Proof.
  intros Hclass HW. unfold Class.
  destruct (isComponentishClass n); cbn [negb].
  - destruct (addComponentRecord_wrapper n state w (findDisplayName_class n Hclass))
      as (uid & state' & w' & Hadd & Hwrap).
    rewrite bind_eq, Hadd. unfold ret.
    eexists _, state', w'. split; [reflexivity|]. split; [congruence|].
    right. eexists. split; [by exists uid|].
    rewrite HW. by apply pushed_decorators_one.
  - exists n, state, w. split; [done|]. split; [done|].
    left. apply pushed_decorators_same.
Qed.

Lemma CallExpression_exit_wraps (n : node) (W : node) (state : State) (w : world) :
  __reactTransformWrapComponentId state = W →
  ∃ r state' w',
    CallExpression_exit n file state w = Ok ((r, state'), w') ∧
    __reactTransformWrapComponentId state' = W ∧
    (r = None ∨
     ∃ uniqueId,
       r = Some (CallExpression (CallExpression W [Literal (LString uniqueId)]) [n])).
Proof.
  intros HW. unfold CallExpression_exit.
  destruct (isCreateClass (Some n)) eqn:Hfactory; cbn [negb].
  - destruct (addComponentRecord_wrapper n state w
                (findDisplayName_createClass n Hfactory))
      as (uid & state' & w' & Hadd & Hwrap).
    rewrite bind_eq, Hadd. unfold ret.
    eexists _, state', w'. split; [reflexivity|]. split; [congruence|].
    right. exists uid. by rewrite HW.
  - exists None, state, w. split; [done|]. split; [done|]. by left.
Qed.

Lemma mapS_wraps {A} (f : A → State → M world (A * State))
    (R : node → A → A → Prop) (l : list A) :
  list_all A (walk_wraps f R) l →
  walk_wraps (mapS f) (λ W, Forall2 (R W)) l.
Proof.
  induction 1 as [|x Hx l _ IH]; intros W state w HW; simpl.
  - exists [], state, w. split; [done|]. split; [done|]. constructor.
  - rewrite bind_eq.
    destruct (Hx W state w HW) as (x' & s1 & w1 & -> & HW1 & Hx').
    rewrite bind_eq.
    destruct (IH W s1 w1 HW1) as (l' & s2 & w2 & -> & HW2 & Hl').
    exists (x' :: l'), s2, w2. split; [done|]. split; [done|]. by constructor.
Qed.

Lemma optS_wraps {A} (f : A → State → M world (A * State))
    (R : node → A → A → Prop) (o : option A) :
  option_all A (walk_wraps f R) o →
  walk_wraps (optS f) (λ W, option_Forall2 (R W)) o.
Proof.
  destruct 1 as [x Hx|]; intros W state w HW; simpl.
  - rewrite bind_eq.
    destruct (Hx W state w HW) as (x' & s1 & w1 & -> & HW1 & Hx').
    exists (Some x'), s1, w1. split; [done|]. split; [done|]. by constructor.
  - exists None, state, w. split; [done|]. split; [done|]. constructor.
Qed.

Lemma decorators_wrap (o : option (list node)) :
  option_all (list node) (list_all node (walk_wraps (traverse file) wrapping)) o →
  walk_wraps (optS (mapS (traverse file)))
    (λ W, option_Forall2 (Forall2 (wrapping W))) o.
Proof.
  intros Hall.
  apply (optS_wraps (mapS (traverse file)) (λ W, Forall2 (wrapping W))).
  destruct Hall as [l Hl|]; constructor. by apply mapS_wraps.
Qed.

Ltac walk_cbn :=
  cbn -[Class CallExpression_exit mapS optS Function_enter Function_exit
        isComponentishClass isCreateClass pushed_decorators].

Ltac walk_fold :=
  fold (traverse file) (traverse_property file) (traverse_member file).

Ltac walk_norm := walk_cbn; walk_fold; unfold bind, ret; walk_cbn; walk_fold.

Ltac wraps_with H W s w :=
  let E := fresh "E" in
  let HW := fresh "HW" in
  assert (HW : __reactTransformWrapComponentId s = W) by assumption;
  destruct (H W s w HW) as (? & ? & ? & E & ? & ?); rewrite E; clear E.

(** One step of the walk: a child, or a hook. *)
Ltac wraps_step W :=
  match goal with
  | IH : option_all (list node) _ ?o
    |- context [optS (mapS (traverse file)) ?o ?s ?w] =>
      wraps_with (decorators_wrap o IH) W s w
  | IH : walk_wraps (traverse file) _ ?n |- context [traverse file ?n ?s ?w] =>
      wraps_with IH W s w
  | IH : list_all node _ ?l |- context [mapS (traverse file) ?l ?s ?w] =>
      wraps_with (mapS_wraps (traverse file) wrapping l IH) W s w
  | IH : list_all property _ ?l
    |- context [mapS (traverse_property file) ?l ?s ?w] =>
      wraps_with (mapS_wraps (traverse_property file) wrapping_property l IH) W s w
  | IH : list_all member _ ?l
    |- context [mapS (traverse_member file) ?l ?s ?w] =>
      wraps_with (mapS_wraps (traverse_member file) wrapping_member l IH) W s w
  | IH : option_all node _ ?o |- context [optS (traverse file) ?o ?s ?w] =>
      wraps_with (optS_wraps (traverse file) wrapping o IH) W s w
  | |- context [Class ?n file ?s ?w] =>
      wraps_with (λ W s w, Class_wraps n W s w eq_refl) W s w
  | |- context [CallExpression_exit ?n file ?s ?w] =>
      wraps_with (CallExpression_exit_wraps n) W s w
  end.

(** One constructor of the tree: the children are related by the
    induction hypotheses, and the hooks add a wrapper or nothing. *)
Ltac wraps_case :=
  intros;
  intros W state w HW;
  try change (__reactTransformWrapComponentId (Function_enter state) = W) in HW;
  walk_norm;
  repeat (wraps_step W; walk_norm);
  repeat match goal with
         | Hhook : _ ∨ _ |- _ =>
             destruct Hhook as [->|(? & ? & ->)] || destruct Hhook as [->|(? & ->)]
         end;
  eexists _, _, _; (split; [reflexivity|]);
  (split; [assumption|]);
  first [ by constructor
        | by (apply wrapping_call; constructor)
        | by (econstructor; eauto) ].

Lemma traverse_wraps (n : node) : walk_wraps (traverse file) wrapping n.
Proof.
  apply (node_mut
           (walk_wraps (traverse file) wrapping)
           (walk_wraps (traverse_property file) wrapping_property)
           (walk_wraps (traverse_member file) wrapping_member)).
  all: wraps_case.
Qed.

(** The relation does not let a leaf, or the kind of a statement,
    change. *)
Lemma wrapping_Identifier (W : node) (name : string) (n' : node) :
  wrapping W (Identifier name) n' → n' = Identifier name.
Proof. by inversion 1. Qed.

Lemma wrapping_statement (W expression n' : node) :
  wrapping W (ExpressionStatement expression) n' →
  ∃ expression', n' = ExpressionStatement expression' ∧
                 wrapping W expression expression'.
Proof.
  inversion 1; subst; eexists; (split; [reflexivity|]); [constructor | done].
Qed.

(** X15. The walk changes the statements of a program by adding
    wrappers and in no other way: statement by statement, the tree it
    returns is the tree it was given in which classes have got one more
    decorator, the call of the wrapper identifier on a string, and
    calls have become the argument of the call of such a call. *)
Theorem walk_only_adds_wrappers (body : list node) (state : State) (w : world) :
  ∃ body' state' w',
    mapS (traverse file) body state w = Ok ((body', state'), w') ∧
    Forall2 (wrapping (__reactTransformWrapComponentId state)) body body'.
Proof.
  destruct (mapS_wraps (traverse file) wrapping body
              (list_all_forall _ _ traverse_wraps body) _ state w eq_refl)
    as (body' & state' & w' & Hrun & _ & Hwrapped).
  by exists body', state', w'.
Qed.

End WalkWraps.
